(** * Holista dashboards: formatting, reconciliation and ageing rollups

    A shallow embedding of the data pipeline of the Holista Streamlit
    dashboards (overduepaymentholista.py, pages/overduecreditorholista.py,
    pages/holistafile.py, ftp_data_loader.py) and the properties of it that
    the specification states.

    Conventions of the embedding:
    - a Python float is an IEEE binary64 value of the Standard Library's
      [SpecFloat], with its rounding, infinities and NaN;
    - a Python [str] is a [string] of UTF-8 bytes;
    - a raised exception is the [Raise] case of [result], and statements in
      sequence are chained with the bind of [result];
    - a pandas frame is a list: of labelled columns where the code works on
      the labels, of typed rows where it filters, joins and sums rows;
    - what lies outside the repository (the FTP server, the decoders and the
      text-to-number parser of pandas, [str] of a float, the clock) is a
      section variable, so every theorem holds whatever these do. *)

From Stdlib Require Import ZArith NArith Lia String Ascii.
From Stdlib Require Import DecimalString DecimalPos DecimalN.
From Stdlib Require Import Floats.SpecFloat.
From stdpp Require Import base list strings gmap sorting.
From Equations Require Import Equations.

Local Open Scope Z_scope.

(** ** Exceptions and results *)

(** The exception classes the modelled code raises or catches.  [OSError]
    stands for an OSError that is not a FileNotFoundError (its subclass);
    [OtherError] is any class outside the ones named here, such as
    ftplib.error_temp, EOFError or zipfile.BadZipFile. *)
Inductive exn_class :=
  | FileNotFoundError
  | error_perm
  | OSError
  | ValueError
  | TypeError
  | OverflowError
  | KeyError
  | OtherError (name : string).

(** An exception: its class and its message, [str(exc)] (for a KeyError
    the key or text it is raised with, which [str] puts in quotes). *)
Record exn := Exn { exn_cls : exn_class; exn_str : string }.

Inductive result (A : Type) :=
  | Ok (a : A)
  | Raise (e : exn).
Arguments Ok {A} a.
Arguments Raise {A} e.

(** Sequencing: the first exception raised ends the computation. *)
#[global] Instance result_bind : MBind result := fun A B k r =>
  match r with
  | Ok a => k a
  | Raise e => Raise e
  end.

Definition is_ok {A} (r : result A) : bool :=
  match r with Ok _ => true | Raise _ => false end.


(** ** Python strings *)

Module PyStr.

Definition to_list (s : string) : list ascii := list_ascii_of_string s.
Definition of_list (l : list ascii) : string := string_of_list_ascii l.

(** [len(s)] *)
Definition len (s : string) : nat := length (to_list s).

(** [s[-n:]] for n > 0: the last [n] characters, all of [s] when it is
    shorter. *)
Definition last_n (n : nat) (s : string) : string :=
  of_list (drop (len s - n) (to_list s)).

(** [s[:-n]] for n > 0: all but the last [n] characters, empty when [s] is
    shorter. *)
Definition but_last_n (n : nat) (s : string) : string :=
  of_list (take (len s - n) (to_list s)).

(** Dropping a run of one character at the front of a list. *)
Fixpoint lstrip_list (c : ascii) (l : list ascii) : list ascii :=
  match l with
  | [] => []
  | a :: l' => if Ascii.eqb a c then lstrip_list c l' else l
  end.

(** [s.rstrip(c)] for a one-character [c]. *)
Definition rstrip (c : ascii) (s : string) : string :=
  of_list (rev (lstrip_list c (rev (to_list s)))).

(** The characters that [str.strip()] removes are those of [str.isspace],
    here by their UTF-8 bytes.  In one byte: TAB, LF, VT, FF, CR, FS, GS,
    RS, US and the blank. *)
Definition is_space (a : ascii) : bool :=
  let n := nat_of_ascii a in
  ((9 <=? n)%nat && (n <=? 13)%nat) || ((28 <=? n)%nat && (n <=? 32)%nat).

(** In two bytes: U+0085 (C2 85) and the no-break space U+00A0 (C2 A0). *)
Definition is_space2 (a b : ascii) : bool :=
  let m := nat_of_ascii a in
  let n := nat_of_ascii b in
  (m =? 194)%nat && ((n =? 133)%nat || (n =? 160)%nat).

(** In three bytes: U+1680 (E1 9A 80), U+2000 to U+200A (E2 80 80 to
    E2 80 8A), U+2028 and U+2029 (E2 80 A8, E2 80 A9), U+202F (E2 80 AF),
    U+205F (E2 81 9F) and U+3000 (E3 80 80). *)
Definition is_space3 (a b c : ascii) : bool :=
  let m := nat_of_ascii a in
  let n := nat_of_ascii b in
  let k := nat_of_ascii c in
  ((m =? 225)%nat && (n =? 154)%nat && (k =? 128)%nat) ||
  ((m =? 226)%nat && (n =? 128)%nat &&
   (((128 <=? k)%nat && (k <=? 138)%nat) ||
    (k =? 168)%nat || (k =? 169)%nat || (k =? 175)%nat)) ||
  ((m =? 226)%nat && (n =? 129)%nat && (k =? 159)%nat) ||
  ((m =? 227)%nat && (n =? 128)%nat && (k =? 128)%nat).

(** [s.lstrip()], on the bytes: the white space characters at the front go,
    whole characters at a time. *)
Fixpoint lstrip_ws (l : list ascii) : list ascii :=
  match l with
  | [] => []
  | a :: l1 =>
      if is_space a then lstrip_ws l1
      else
        match l1 with
        | [] => l
        | b :: l2 =>
            if is_space2 a b then lstrip_ws l2
            else
              match l2 with
              | [] => l
              | c :: l3 => if is_space3 a b c then lstrip_ws l3 else l
              end
        end
  end.

(** The same on the reversed bytes, for the end of the string: the last
    byte comes first, so a character is read backwards. *)
Fixpoint lstrip_ws_rev (l : list ascii) : list ascii :=
  match l with
  | [] => []
  | a :: l1 =>
      if is_space a then lstrip_ws_rev l1
      else
        match l1 with
        | [] => l
        | b :: l2 =>
            if is_space2 b a then lstrip_ws_rev l2
            else
              match l2 with
              | [] => l
              | c :: l3 => if is_space3 c b a then lstrip_ws_rev l3 else l
              end
        end
  end.

(** [s.strip()] *)
Definition strip (s : string) : string :=
  of_list (rev (lstrip_ws_rev (rev (lstrip_ws (to_list s))))).

(** [sep.join(parts)] *)
Fixpoint join (sep : string) (parts : list string) : string :=
  match parts with
  | [] => ""
  | [p] => p
  | p :: ps => p +:+ sep +:+ join sep ps
  end.

(** [str(n)] for a non-negative integer. *)
Definition of_N (n : N) : string := NilEmpty.string_of_uint (N.to_uint n).

End PyStr.

(** ** Python floats *)

Module PyFloat.

Definition float := spec_float.

Definition prec : Z := 53.
Definition emax : Z := 1024.

(** The float of an integer literal, [float(z)]. *)
Definition of_Z (z : Z) : float := binary_normalize prec emax z 0 false.

Definition add : float -> float -> float := SFadd prec emax.
Definition div : float -> float -> float := SFdiv prec emax.
Definition abs : float -> float := SFabs.

(** [a >= b], [a > b]: false as soon as one side is NaN. *)
Definition ge (a b : float) : bool := SFleb b a.
Definition gt (a b : float) : bool := SFltb b a.

(** [pd.isna(x)] on a float. *)
Definition isna (x : float) : bool :=
  match x with S754_nan => true | _ => false end.

Definition is_finite (x : float) : bool :=
  match x with S754_zero _ | S754_finite _ _ _ => true | _ => false end.

(** [int(x)]: truncation towards zero; infinities and NaN raise. *)
Definition to_int (x : float) : result Z :=
  match x with
  | S754_zero _ => Ok 0
  | S754_finite s m e => Ok (cond_Zopp s (Z.shiftl (Z.pos m) e))
  | S754_infinity _ =>
      Raise (Exn OverflowError "cannot convert float infinity to integer")
  | S754_nan =>
      Raise (Exn ValueError "cannot convert float NaN to integer")
  end.

(** Nearest integer to [a / b] for [b > 0], ties to the even one. *)
Definition div_half_even (a b : Z) : Z :=
  let q := a / b in
  match (2 * (a mod b) ?= b) with
  | Lt => q
  | Gt => q + 1
  | Eq => if Z.even q then q else q + 1
  end.

(** The magnitude [m * 2^e] in hundredths, correctly rounded. *)
Definition hundredths (m : positive) (e : Z) : Z :=
  match e with
  | Zneg p => div_half_even (Z.pos m * 100) (2 ^ Z.pos p)
  | _ => Z.pos m * 100 * 2 ^ e
  end.

Definition two_digits (d : Z) : string :=
  if d <? 10 then "0" +:+ PyStr.of_N (Z.to_N d) else PyStr.of_N (Z.to_N d).

Definition sign_str (s : bool) : string := if s then "-" else "".

(** [f"{x:.2f}"] *)
Definition format_2f (x : float) : string :=
  match x with
  | S754_nan => "nan"
  | S754_infinity s => sign_str s +:+ "inf"
  | S754_zero s => sign_str s +:+ "0.00"
  | S754_finite s m e =>
      let h := hundredths m e in
      sign_str s +:+ PyStr.of_N (Z.to_N (h / 100)) +:+ "."
        +:+ two_digits (h mod 100)
  end.

End PyFloat.

Import PyFloat.

(** ** The number formatters (overduepaymentholista.py, lines 11-60) *)

(** The [while s:] loop of [format_indian]: each turn moves the last two
    characters of [s], followed by a comma, to the front of [result]; the
    loop ends when [s] is empty. *)
Equations? group_loop (s result : string) : string by wf (PyStr.len s) lt :=
  group_loop EmptyString result := result;
  group_loop (String a s') result :=
    group_loop (PyStr.but_last_n 2 (String a s'))
      (PyStr.last_n 2 (String a s') +:+ "," +:+ result).
Proof.
  unfold PyStr.but_last_n, PyStr.len, PyStr.of_list, PyStr.to_list.
  rewrite list_ascii_of_string_of_list_ascii, length_take. simpl. lia.
Qed.

(** The part of [format_indian] after [s = str(num)], for a digit string
    longer than three characters. *)
Definition group_digits (s : string) : string :=
  group_loop (PyStr.but_last_n 3 s) (PyStr.last_n 3 s).

Definition format_indian (num : float) : result string :=
  if isna num then Ok "0"
  else
    let sign := if ge num (of_Z 0) then "" else "-" in
    i ← to_int num;
    let n := Z.abs_N i in
    if (n =? 0)%N then Ok "0"
    else
      let s := PyStr.of_N n in
      if (PyStr.len s <=? 3)%nat then Ok (sign +:+ s)
      else Ok (sign +:+ group_digits s).

(** The currency prefix: the rupee sign and one blank. *)
Definition rupee (currency : bool) (body : string) : string :=
  if currency then "₹ " +:+ body else body.

(** [f"{val:.2f}".rstrip('0').rstrip('.')] *)
Definition trim_2f (val : float) : string :=
  PyStr.rstrip "." (PyStr.rstrip "0" (format_2f val)).

Definition format_number (num : float) (currency short : bool) : result string :=
  if isna num then Ok "0"
  else
    let absnum := abs num in
    if short then
      if ge absnum (of_Z 10000000) then
        Ok (rupee currency (trim_2f (div num (of_Z 10000000)) +:+ "Cr"))
      else if ge absnum (of_Z 100000) then
        Ok (rupee currency (trim_2f (div num (of_Z 100000)) +:+ "L"))
      else if ge absnum (of_Z 1000) then
        Ok (rupee currency (trim_2f (div num (of_Z 1000)) +:+ "K"))
      else
        formatted ← format_indian num;
        Ok (rupee currency formatted)
    else
      formatted ← format_indian num;
      Ok (rupee currency formatted).

(** *** What the specification says of the grouping

    The groups of an Indian-grouped numeral: the rightmost group has three
    digits and every group to its left has two, except the leftmost, which
    has one or two.  A numeral of at most three digits is a single group. *)

Definition short_group (g : string) : bool :=
  (1 <=? PyStr.len g)%nat && (PyStr.len g <=? 2)%nat.

(** The groups to the left of the last one. *)
Definition front_shape (front : list string) : bool :=
  match front with
  | [] => true
  | g :: mids => short_group g && forallb (fun m => (PyStr.len m =? 2)%nat) mids
  end.

Definition indian_shape (groups : list string) : bool :=
  match reverse groups with
  | [] => false
  | last :: rfront =>
      front_shape (reverse rfront) &&
      match rfront with
      | [] => (1 <=? PyStr.len last)%nat && (PyStr.len last <=? 3)%nat
      | _ => (PyStr.len last =? 3)%nat
      end
  end.

(** ** Properties *)

(** *** Strings *)

Module PyStrFacts.
Import PyStr.

Lemma of_to s : of_list (to_list s) = s.
Proof. apply string_of_list_ascii_of_string. Qed.

Lemma to_of l : to_list (of_list l) = l.
Proof. apply list_ascii_of_string_of_list_ascii. Qed.

Lemma of_list_app l1 l2 : of_list (l1 ++ l2) = of_list l1 +:+ of_list l2.
Proof. induction l1 as [|a l1 IH]; simpl; [done|]. now rewrite IH. Qed.

Lemma to_list_app s1 s2 : to_list (s1 +:+ s2) = to_list s1 ++ to_list s2.
Proof.
  rewrite <- (of_to s1), <- (of_to s2), <- of_list_app.
  now rewrite !to_of.
Qed.

Lemma len_app s1 s2 : len (s1 +:+ s2) = (len s1 + len s2)%nat.
Proof. unfold len. now rewrite to_list_app, length_app. Qed.

Lemma len_of_list l : len (of_list l) = length l.
Proof. unfold len. now rewrite to_of. Qed.

Lemma len_0 s : len s = 0%nat <-> s = "".
Proof. destruct s; simpl; split; intros; done. Qed.

Lemma app_nil_r s : s +:+ "" = s.
Proof.
  induction s as [|a s IH]; [done|].
  change (String a (s +:+ "") = String a s). now rewrite IH.
Qed.

Lemma app_assoc s1 s2 s3 : (s1 +:+ s2) +:+ s3 = s1 +:+ (s2 +:+ s3).
Proof.
  induction s1 as [|a s1 IH]; [done|].
  change (String a ((s1 +:+ s2) +:+ s3) = String a (s1 +:+ (s2 +:+ s3))).
  now rewrite IH.
Qed.

Lemma but_last_last k s : but_last_n k s +:+ last_n k s = s.
Proof.
  unfold but_last_n, last_n. rewrite <- of_list_app, take_drop. apply of_to.
Qed.

Lemma len_but_last k s : len (but_last_n k s) = (len s - k)%nat.
Proof.
  unfold but_last_n. rewrite len_of_list, length_take. unfold len. lia.
Qed.

Lemma len_last k s : len (last_n k s) = Nat.min k (len s).
Proof.
  unfold last_n. rewrite len_of_list, length_drop. unfold len. lia.
Qed.

Lemma join_snoc sep gs r :
  join sep (gs ++ [r]) = foldr (fun g acc => g +:+ sep +:+ acc) r gs.
Proof.
  induction gs as [|g gs IH]; simpl; [done|].
  rewrite <- IH. now destruct gs.
Qed.

Lemma join_empty_snoc gs r : join "" (gs ++ [r]) = join "" gs +:+ r.
Proof.
  induction gs as [|g gs IH]; [done|].
  destruct gs as [|g' gs]; [done|].
  change (g +:+ "" +:+ join "" ((g' :: gs) ++ [r]) =
          (g +:+ "" +:+ join "" (g' :: gs)) +:+ r).
  now rewrite IH, !app_assoc.
Qed.

End PyStrFacts.


(** *** Indian grouping *)

Section Grouping.
Import PyStr PyStrFacts.

(** What one run of the loop builds in front of [result]. *)
Definition prepend_groups (gs : list string) (result : string) : string :=
  foldr (fun g acc => g +:+ "," +:+ acc) result gs.

Lemma group_loop_nil result : group_loop "" result = result.
Proof. now simp group_loop. Qed.

(** The loop started on a non-empty [s]. *)
Lemma group_loop_step a s result :
  group_loop (String a s) result =
  group_loop (but_last_n 2 (String a s))
    (last_n 2 (String a s) +:+ "," +:+ result).
Proof. now simp group_loop. Qed.

Lemma front_shape_snoc g mids x :
  front_shape (g :: mids) = true -> len x = 2%nat ->
  front_shape ((g :: mids) ++ [x]) = true.
Proof.
  simpl. intros [Hg Hm]%andb_true_iff Hx.
  rewrite Hg, forallb_app, Hm. simpl. now rewrite Hx.
Qed.

(** The loop cuts [s] into groups of two from the right; only the leftmost
    group may have a single character. *)
Lemma group_loop_groups n : forall s result,
  (len s <= n)%nat ->
  exists gs,
    group_loop s result = prepend_groups gs result /\
    join "" gs = s /\ front_shape gs = true /\ (gs = [] <-> s = "").
Proof.
  induction n as [|n IH]; intros s result Hlen.
  - assert (s = "") as -> by (apply len_0; lia).
    exists []. now rewrite group_loop_nil.
  - destruct s as [|a s']; [exists []; now rewrite group_loop_nil|].
    rewrite group_loop_step.
    set (s := String a s') in *.
    assert (1 <= len s)%nat as Hpos by (unfold s, len; simpl; lia).
    destruct (IH (but_last_n 2 s) (last_n 2 s +:+ "," +:+ result))
      as (gs & Hloop & Hcat & Hshape & Hnil).
    { rewrite len_but_last. lia. }
    exists (gs ++ [last_n 2 s]). repeat split.
    + rewrite Hloop. unfold prepend_groups. now rewrite foldr_app.
    + rewrite join_empty_snoc, Hcat. apply but_last_last.
    + destruct gs as [|g mids].
      * assert (len (but_last_n 2 s) = 0%nat) as H0
          by (apply len_0, Hnil; done).
        rewrite len_but_last in H0. simpl. unfold short_group.
        rewrite len_last. rewrite andb_true_r.
        apply andb_true_iff; split; apply Nat.leb_le; lia.
      * apply front_shape_snoc; [done|].
        assert (but_last_n 2 s <> "") as Hne
          by (intros E; apply Hnil in E; done).
        rewrite <- len_0, len_but_last in Hne. rewrite len_last. lia.
    + intros E. now destruct gs.
    + intros E. discriminate E.
Qed.

(** A numeral of more than three digits: the loop's groups, then the last
    three digits. *)
Lemma group_digits_groups s :
  (3 < len s)%nat ->
  exists groups,
    group_digits s = join "," groups /\
    join "" groups = s /\ indian_shape groups = true.
Proof.
  intros Hlen. unfold group_digits.
  destruct (group_loop_groups (len s) (but_last_n 3 s) (last_n 3 s))
    as (gs & Hloop & Hcat & Hshape & Hnil).
  { rewrite len_but_last. lia. }
  exists (gs ++ [last_n 3 s]). repeat split.
  - now rewrite Hloop, join_snoc.
  - rewrite join_empty_snoc, Hcat. apply but_last_last.
  - unfold indian_shape. rewrite reverse_snoc, reverse_involutive, Hshape.
    destruct gs as [|g mids].
    + assert (len (but_last_n 3 s) = 0%nat) as H0
        by (apply len_0, Hnil; done).
      rewrite len_but_last in H0. lia.
    + rewrite reverse_cons.
      destruct (reverse mids ++ [g]) eqn:E; [now destruct (reverse mids)|].
      simpl. rewrite len_last. apply Nat.eqb_eq. lia.
Qed.

(** A numeral of at most three digits is its own single group. *)
Lemma single_group s :
  (1 <= len s <= 3)%nat ->
  s = join "," [s] /\ join "" [s] = s /\ indian_shape [s] = true.
Proof.
  intros [H1 H3]. repeat split.
  change (indian_shape [s])
    with (true && ((1 <=? len s)%nat && (len s <=? 3)%nat)).
  apply andb_true_iff; split; [done|].
  apply andb_true_iff; split; apply Nat.leb_le; lia.
Qed.

End Grouping.

(** *** [format_indian] *)

Section FormatIndian.
Import PyStr PyStrFacts.

Lemma of_N_nonempty n : (1 <= len (of_N n))%nat.
Proof.
  unfold of_N.
  assert (N.to_uint n <> Decimal.Nil) as Hnil.
  { destruct n as [|p]; [done|]. apply DecimalPos.Unsigned.to_uint_nonnil. }
  destruct (N.to_uint n); [done|..]; unfold len; simpl; lia.
Qed.

(** Away from NaN, [num >= 0] fails exactly when [0 > num]. *)
Lemma ge_zero_negb num :
  isna num = false -> ge num (of_Z 0) = negb (gt (of_Z 0) num).
Proof. destruct num as [[]|[]| |[] m e]; done. Qed.

Lemma to_int_not_nan num i : to_int num = Ok i -> isna num = false.
Proof. destruct num; done. Qed.

(** The sign that [format_indian] writes. *)
Definition sign_of (num : float) : string :=
  if gt (of_Z 0) num then "-" else "".

Lemma format_indian_unfold num i :
  to_int num = Ok i ->
  format_indian num =
    if (Z.abs_N i =? 0)%N then Ok "0"
    else if (len (of_N (Z.abs_N i)) <=? 3)%nat
         then Ok (sign_of num +:+ of_N (Z.abs_N i))
         else Ok (sign_of num +:+ group_digits (of_N (Z.abs_N i))).
Proof.
  intros Hi. unfold format_indian, sign_of.
  rewrite (to_int_not_nan _ _ Hi), Hi, (ge_zero_negb _ (to_int_not_nan _ _ Hi)).
  simpl. now destruct (gt _ num).
Qed.

(** -1/2, a negative input whose integer part is zero. *)
Definition minus_half : float := div (of_Z (-1)) (of_Z 2).

(** C7 as stated fails: -0.5 is a negative input, and the output carries no
    leading minus sign. *)
Lemma format_indian_minus_half :
  gt (of_Z 0) minus_half = true /\ format_indian minus_half = Ok "0".
Proof. split; vm_compute; reflexivity. Qed.

(** C7 (amended): NaN and every input whose integer part is zero give "0";
    an input with a non-zero integer part gives the digits of the integer
    magnitude, cut into comma-separated groups (three digits in the last
    group, two in every group to its left, one or two in the leftmost),
    behind a "-" when the input is negative; an infinite input raises
    OverflowError.  The three examples of the specification hold. *)
Theorem format_indian_spec (num : float) :
  (isna num = true -> format_indian num = Ok "0") /\
  (forall i, to_int num = Ok i -> i = 0 -> format_indian num = Ok "0") /\
  (forall i, to_int num = Ok i -> i <> 0 ->
     exists groups,
       format_indian num = Ok (sign_of num +:+ join "," groups) /\
       join "" groups = of_N (Z.abs_N i) /\
       indian_shape groups = true) /\
  (forall s, num = S754_infinity s ->
     exists msg, format_indian num = Raise (Exn OverflowError msg)) /\
  format_indian (of_Z 1234567) = Ok "12,34,567" /\
  format_indian (of_Z 100) = Ok "100" /\
  format_indian (of_Z (-5000)) = Ok "-5,000".
Proof.
  split; [|split; [|split; [|split]]].
  - intros Hnan. unfold format_indian. now rewrite Hnan.
  - intros i Hi ->. now rewrite (format_indian_unfold _ _ Hi).
  - intros i Hi Hnz. rewrite (format_indian_unfold _ _ Hi).
    destruct (N.eqb_spec (Z.abs_N i) 0) as [E|_]; [lia|].
    pose proof (of_N_nonempty (Z.abs_N i)) as Hpos.
    destruct (Nat.leb_spec (len (of_N (Z.abs_N i))) 3) as [Hle|Hgt].
    + exists [of_N (Z.abs_N i)].
      destruct (single_group (of_N (Z.abs_N i))) as (_ & Hcat & Hshape);
        [lia|done].
    + destruct (group_digits_groups (of_N (Z.abs_N i)) Hgt)
        as (groups & Hg & Hcat & Hshape).
      exists groups. now rewrite Hg.
  - intros s ->. eexists. now destruct s.
  - repeat split; vm_compute; reflexivity.
Qed.

Lemma format_indian_spec_witness :
  exists groups,
    format_indian (of_Z (-5000)) =
      Ok (sign_of (of_Z (-5000)) +:+ join "," groups) /\
    join "" groups = of_N (Z.abs_N (-5000)) /\
    indian_shape groups = true.
Proof.
  apply (proj1 (proj2 (proj2 (format_indian_spec (of_Z (-5000)))))).
  - vm_compute; reflexivity.
  - lia.
Defined.

End FormatIndian.

(** *** Two decimals, then trimming *)

Section TwoDecimals.
Import PyStr PyStrFacts.

Definition is_digit (a : ascii) : bool :=
  let n := nat_of_ascii a in (48 <=? n)%nat && (n <=? 57)%nat.

(** A string that ends in a decimal digit. *)
Definition ends_in_digit (s : string) : Prop :=
  exists l c, to_list s = l ++ [c] /\ is_digit c = true.

Lemma string_of_uint_digits d :
  Forall (fun c => is_digit c = true) (to_list (NilEmpty.string_of_uint d)).
Proof. induction d; simpl; constructor; done. Qed.

Lemma of_N_ends_in_digit n : ends_in_digit (of_N n).
Proof.
  pose proof (of_N_nonempty n) as Hlen.
  pose proof (string_of_uint_digits (N.to_uint n)) as Hd.
  unfold ends_in_digit, of_N, len in *.
  destruct (to_list (NilEmpty.string_of_uint (N.to_uint n)))
    as [|c l _] using rev_ind; [simpl in Hlen; lia|].
  exists l, c. split; [done|].
  apply Forall_app in Hd as [_ Hc]. now inversion Hc.
Qed.

Lemma ends_in_digit_app p s : ends_in_digit s -> ends_in_digit (p +:+ s).
Proof.
  intros (l & c & Hl & Hc). exists (to_list p ++ l), c.
  rewrite to_list_app, Hl. split; [now rewrite <- List.app_assoc|done].
Qed.

(** The digits 00..99 as [two_digits] writes them. *)
Definition two_digit_ok (d : nat) : bool :=
  match two_digits (Z.of_nat d) with
  | String d1 (String d2 EmptyString) => is_digit d1 && is_digit d2
  | _ => false
  end.

Lemma two_digits_all : forallb two_digit_ok (seq 0 100) = true.
Proof. vm_compute. reflexivity. Qed.

Lemma two_digits_shape d :
  0 <= d < 100 ->
  exists d1 d2,
    two_digits d = String d1 (String d2 "") /\
    is_digit d1 = true /\ is_digit d2 = true.
Proof.
  intros Hd. pose proof two_digits_all as Hall.
  rewrite forallb_forall in Hall.
  specialize (Hall (Z.to_nat d)). unfold two_digit_ok in Hall.
  rewrite Z2Nat.id in Hall by lia.
  destruct (two_digits d) as [|d1 [|d2 [|]]] eqn:E;
    try (assert (false = true) by (apply Hall, in_seq; lia); done).
  exists d1, d2. split; [done|].
  apply andb_true_iff, Hall, in_seq. lia.
Qed.

(** A finite float under [.2f]: an integer part that ends in a digit, the
    point, and exactly two digits. *)
Lemma format_2f_shape val :
  is_finite val = true ->
  exists ip d1 d2,
    format_2f val = ip +:+ "." +:+ String d1 (String d2 "") /\
    ends_in_digit ip /\ is_digit d1 = true /\ is_digit d2 = true.
Proof.
  destruct val as [s|s| |s m e]; try done; intros _.
  - exists (sign_str s +:+ "0"), "0"%char, "0"%char. repeat split.
    + now destruct s.
    + apply ends_in_digit_app. now exists [], "0"%char.
  - destruct (two_digits_shape (hundredths m e mod 100))
      as (d1 & d2 & Hd & H1 & H2); [apply Z.mod_pos_bound; lia|].
    exists (sign_str s +:+ of_N (Z.to_N (hundredths m e / 100))), d1, d2.
    repeat split; try done.
    + unfold format_2f. now rewrite Hd, !app_assoc.
    + apply ends_in_digit_app, of_N_ends_in_digit.
Qed.

Lemma digit_not_point c : is_digit c = true -> Ascii.eqb c "." = false.
Proof.
  intros Hc. apply Ascii.eqb_neq. intros ->. done.
Qed.

Lemma rstrip_snoc_ne c s l a :
  to_list s = l ++ [a] -> Ascii.eqb a c = false -> rstrip c s = s.
Proof.
  intros Hl Ha. unfold rstrip. rewrite Hl, rev_unit. simpl. rewrite Ha.
  change (a :: rev l) with (rev [a] ++ rev l).
  rewrite <- rev_app_distr, rev_involutive, <- Hl. apply of_to.
Qed.

Lemma rstrip_snoc_eq c s : rstrip c (s +:+ String c "") = rstrip c s.
Proof.
  unfold rstrip. rewrite to_list_app. simpl.
  rewrite rev_unit. simpl. now rewrite Ascii.eqb_refl.
Qed.

(** What stripping the zeros and then the point leaves of a [.2f] string. *)
Definition trimmed (ip : string) (d1 d2 : ascii) : string :=
  if Ascii.eqb d2 "0" then
    if Ascii.eqb d1 "0" then ip else ip +:+ "." +:+ String d1 ""
  else ip +:+ "." +:+ String d1 (String d2 "").

Lemma trim_shape ip d1 d2 :
  ends_in_digit ip -> is_digit d1 = true -> is_digit d2 = true ->
  rstrip "." (rstrip "0" (ip +:+ "." +:+ String d1 (String d2 ""))) =
  trimmed ip d1 d2.
Proof.
  intros (l & c & Hl & Hc) H1 H2. unfold trimmed.
  assert (forall x y, ip +:+ "." +:+ String x (String y "") =
            (ip +:+ "." +:+ String x "") +:+ String y "") as Hsplit.
  { intros x y. now rewrite !app_assoc. }
  assert (forall x, ip +:+ "." +:+ String x "" =
            (ip +:+ ".") +:+ String x "") as Hsplit1.
  { intros x. now rewrite !app_assoc. }
  destruct (Ascii.eqb d2 "0") eqn:E2.
  - apply Ascii.eqb_eq in E2 as ->.
    rewrite Hsplit, rstrip_snoc_eq.
    destruct (Ascii.eqb d1 "0") eqn:E1.
    + apply Ascii.eqb_eq in E1 as ->.
      rewrite Hsplit1, rstrip_snoc_eq.
      rewrite (rstrip_snoc_ne "0" (ip +:+ ".") (to_list ip) ".");
        [|now rewrite to_list_app|done].
      rewrite rstrip_snoc_eq.
      apply (rstrip_snoc_ne _ _ l c Hl), digit_not_point, Hc.
    + rewrite (rstrip_snoc_ne "0" _ (to_list ip ++ ["."%char]) d1);
        [|now rewrite !to_list_app, <- List.app_assoc|done].
      apply (rstrip_snoc_ne _ _ (to_list ip ++ ["."%char]) d1);
        [now rewrite !to_list_app, <- List.app_assoc|].
      now apply digit_not_point.
  - rewrite (rstrip_snoc_ne "0" _ (to_list ip ++ ["."%char; d1]) d2);
      [|now rewrite !to_list_app, <- List.app_assoc|done].
    apply (rstrip_snoc_ne _ _ (to_list ip ++ ["."%char; d1]) d2);
      [now rewrite !to_list_app, <- List.app_assoc|].
    now apply digit_not_point.
Qed.

End TwoDecimals.

(** *** [format_number] *)

Section FormatNumber.
Import PyStr PyStrFacts.

(** The non-abbreviated rendering, for a value that is not NaN. *)
Lemma format_number_full v currency :
  isna v = false ->
  format_number v currency false =
    (formatted ← format_indian v; Ok (rupee currency formatted)).
Proof. intros Hv. unfold format_number. now rewrite Hv. Qed.

(** The branches of the abbreviating path. *)
Lemma format_number_cases v currency :
  isna v = false ->
  format_number v currency true =
    if ge (abs v) (of_Z 10000000) then
      Ok (rupee currency (trim_2f (div v (of_Z 10000000)) +:+ "Cr"))
    else if ge (abs v) (of_Z 100000) then
      Ok (rupee currency (trim_2f (div v (of_Z 100000)) +:+ "L"))
    else if ge (abs v) (of_Z 1000) then
      Ok (rupee currency (trim_2f (div v (of_Z 1000)) +:+ "K"))
    else format_number v currency false.
Proof.
  intros Hv. rewrite (format_number_full _ _ Hv).
  unfold format_number. rewrite Hv.
  repeat match goal with |- context [if ?b then _ else _] =>
    destruct b; [reflexivity|] end.
  reflexivity.
Qed.

(** C6: with abbreviation on, a value that is not NaN is divided by 1e7,
    1e5 or 1e3 according to the first of these thresholds its magnitude
    reaches and gets the suffix Cr, L or K; below 1000 the output is the
    non-abbreviated Indian-grouped one.  A finite quotient is first written
    with exactly two decimals; then the trailing zeros go, and the point
    with them when both decimals are zero.  1,500,000 and 12,500,000 in
    currency mode give the two strings of the specification. *)
Theorem format_number_abbreviated (v : float) (currency : bool) :
  (isna v = false ->
   format_number v currency true =
     if ge (abs v) (of_Z 10000000) then
       Ok (rupee currency (trim_2f (div v (of_Z 10000000)) +:+ "Cr"))
     else if ge (abs v) (of_Z 100000) then
       Ok (rupee currency (trim_2f (div v (of_Z 100000)) +:+ "L"))
     else if ge (abs v) (of_Z 1000) then
       Ok (rupee currency (trim_2f (div v (of_Z 1000)) +:+ "K"))
     else format_number v currency false) /\
  (forall q, is_finite q = true ->
     exists ip d1 d2,
       format_2f q = ip +:+ "." +:+ String d1 (String d2 "") /\
       is_digit d1 = true /\ is_digit d2 = true /\
       trim_2f q = trimmed ip d1 d2) /\
  format_number (of_Z 1500000) true true = Ok "₹ 15L" /\
  format_number (of_Z 12500000) true true = Ok "₹ 1.25Cr".
Proof.
  split; [|split].
  - apply format_number_cases.
  - intros q Hq.
    destruct (format_2f_shape q Hq) as (ip & d1 & d2 & Hf & Hip & H1 & H2).
    exists ip, d1, d2. repeat split; try done.
    unfold trim_2f. rewrite Hf. now apply trim_shape.
  - split; vm_compute; reflexivity.
Qed.

Lemma format_number_abbreviated_witness :
  format_number (of_Z 1500000) false true =
    Ok (rupee false (trim_2f (div (of_Z 1500000) (of_Z 100000)) +:+ "L")).
Proof.
  rewrite (proj1 (format_number_abbreviated (of_Z 1500000) false));
    vm_compute; reflexivity.
Defined.

(** Order facts on positive finite floats, as [SFcompare] decides them. *)
Lemma lt_not_ge m e m1 e1 :
  SFltb (S754_finite false m e) (S754_finite false m1 e1) = true ->
  SFleb (S754_finite false m1 e1) (S754_finite false m e) = false.
Proof.
  unfold SFltb, SFleb, SFcompare.
  rewrite (Z.compare_antisym e e1).
  destruct (Z.compare_spec e e1) as [->|Hlt|Hgt]; cbn [CompOpp]; try done.
  pose proof (Pos.compare_cont_antisym m m1 Eq) as Ha.
  cbn [CompOpp] in Ha. rewrite <- Ha.
  now destruct (Pos.compare_cont Eq m m1).
Qed.

Lemma lt_not_ge_above m e m1 e1 m2 e2 :
  e1 < e2 ->
  SFltb (S754_finite false m e) (S754_finite false m1 e1) = true ->
  SFleb (S754_finite false m2 e2) (S754_finite false m e) = false.
Proof.
  intros He. unfold SFltb, SFleb, SFcompare.
  destruct (Z.compare_spec e e1) as [Heq|Hlt|Hgt]; try done; intros _;
    destruct (Z.compare_spec e2 e); try lia; done.
Qed.

(** Below 1000 none of the three thresholds is reached. *)
Lemma below_thousand v :
  ge v (of_Z 0) = true -> gt (of_Z 1000) v = true ->
  isna v = false /\
  ge (abs v) (of_Z 10000000) = false /\
  ge (abs v) (of_Z 100000) = false /\
  ge (abs v) (of_Z 1000) = false.
Proof.
  destruct v as [s|[]| |[] m e]; try done.
  intros _. unfold gt, ge, abs, SFabs.
  change (of_Z 1000) with (S754_finite false 8796093022208000 (-43)).
  change (of_Z 100000) with (S754_finite false 6871947673600000 (-36)).
  change (of_Z 10000000) with (S754_finite false 5368709120000000 (-29)).
  intros Hlt. split; [done|]. split; [|split].
  - eapply lt_not_ge_above; [|exact Hlt]. lia.
  - eapply lt_not_ge_above; [|exact Hlt]. lia.
  - now apply lt_not_ge.
Qed.

(** C9: for 0 <= v < 1000 the abbreviated and the full renderings agree,
    with and without the currency prefix. *)
Theorem format_number_below_thousand (v : float) (currency : bool) :
  ge v (of_Z 0) = true -> gt (of_Z 1000) v = true ->
  format_number v currency true = format_number v currency false.
Proof.
  intros H0 H1.
  destruct (below_thousand v H0 H1) as (Hv & H7 & H5 & H3).
  rewrite (format_number_cases v currency Hv).
  now rewrite H7, H5, H3.
Qed.

Lemma format_number_below_thousand_witness :
  format_number (of_Z 999) true true = format_number (of_Z 999) true false.
Proof.
  apply format_number_below_thousand; vm_compute; reflexivity.
Defined.

End FormatNumber.

(** ** Receivables and creditors: active entities and risk classification
    (overduepaymentholista.py lines 104-111 and 211-220,
    pages/overduecreditorholista.py lines 103-109 and 213-225)

    A row of the reconciled balances frame, with the columns these passages
    read once the [all(col in df.columns ...)] guard has passed: BP Code,
    BP Name, the three oldest ageing buckets and Balance/G.Total.  The two
    identity columns hold values of any type [K] with decidable equality;
    the numeric columns hold floats here, as in a column of dtype float64.
    (The same passages on columns of any dtype, int64 included, are in
    [Ledger] further down.) *)

Section Entities.
Context {K : Type} `{EqDecision K}.

Record balance_row := BalanceRow {
  bp_code : K;
  bp_name : K;
  d61_90 : float;
  d91_120 : float;
  d121_above : float;
  balance_total : float
}.

(** [df[['BP Code', 'BP Name']]], row by row. *)
Definition entity_key (r : balance_row) : K * K := (bp_code r, bp_name r).

(** [drop_duplicates()]: the first occurrence of every value is kept, in
    order. *)
Fixpoint drop_duplicates_from {A} `{EqDecision A} (seen l : list A) : list A :=
  match l with
  | [] => []
  | x :: l' =>
      if decide (x ∈ seen) then drop_duplicates_from seen l'
      else x :: drop_duplicates_from (x :: seen) l'
  end.

Definition drop_duplicates {A} `{EqDecision A} (l : list A) : list A :=
  drop_duplicates_from [] l.

(** [left.merge(right, on=['BP Code', 'BP Name'])] for a [right] that has
    the two key columns only: an inner join, one output row per pair of a
    left row and a right row with the same key, in the order of the left
    rows. *)
Definition merge_on_key (left : list balance_row) (right : list (K * K))
  : list balance_row :=
  flat_map
    (fun r => map (fun _ => r)
                (List.filter (fun k => bool_decide (k = entity_key r)) right))
    left.

(** [df[df['Balance/G.Total'] > 0][['BP Code', 'BP Name']].drop_duplicates()]:
    the active set, [cust_df] in the receivables module and [cred_df] in the
    creditors module. *)
Definition cust_df (df : list balance_row) : list (K * K) :=
  drop_duplicates
    (map entity_key
       (List.filter (fun r => gt (balance_total r) (of_Z 0)) df)).

Definition total_customers (df : list balance_row) : nat :=
  length (cust_df df).

(** [df['High_Risk_Amount']] of the receivables module. *)
Definition High_Risk_Amount (r : balance_row) : float :=
  add (add (d61_90 r) (d91_120 r)) (d121_above r).

(** [high_risk] of the receivables module, before [sort_values] (which
    only reorders the rows). *)
Definition high_risk (df : list balance_row) : list balance_row :=
  let hr := List.filter (fun r => gt (High_Risk_Amount r) (of_Z 0)) df in
  match cust_df df with
  | [] => hr
  | _ => merge_on_key hr (cust_df df)
  end.

Definition high_risk_count (df : list balance_row) : nat :=
  length (high_risk df).

(** [df['Risk_Amount']] of the creditors module. *)
Definition Risk_Amount (r : balance_row) : float :=
  add (d91_120 r) (d121_above r).

(** [risk_creditors] of the creditors module, before [sort_values]. *)
Definition risk_creditors (df : list balance_row) : list balance_row :=
  let rc :=
    List.filter
      (fun r => gt (Risk_Amount r) (of_Z 0) && gt (balance_total r) (of_Z 0))
      df in
  match cust_df df with
  | [] => rc
  | _ => merge_on_key rc (cust_df df)
  end.

Definition risk_count (df : list balance_row) : nat :=
  length (risk_creditors df).

(** *** Facts *)

Lemma elem_of_filter_bool {A} (f : A -> bool) (l : list A) x :
  x ∈ List.filter f l <-> x ∈ l /\ f x = true.
Proof. rewrite !list_elem_of_In. apply filter_In. Qed.

Lemma elem_of_drop_duplicates_from {A} `{EqDecision A} (seen l : list A) x :
  x ∈ drop_duplicates_from seen l <-> x ∈ l /\ x ∉ seen.
Proof.
  revert seen. induction l as [|y l IH]; intros seen; simpl.
  - split; [intros Hx; inversion Hx|intros [Hx _]; inversion Hx].
  - destruct (decide (y ∈ seen)) as [Hy|Hy].
    + rewrite IH, elem_of_cons. split; [tauto|].
      intros [[->|Hx] Hn]; [done|tauto].
    + rewrite !elem_of_cons, IH, elem_of_cons.
      split.
      * intros [->|[Hx Hn]]; [tauto|]. split; [tauto|]. tauto.
      * intros [[->|Hx] Hn]; [tauto|].
        destruct (decide (x = y)) as [->|Hne]; [tauto|]. right. tauto.
Qed.

Lemma NoDup_drop_duplicates_from {A} `{EqDecision A} (seen l : list A) :
  NoDup (drop_duplicates_from seen l).
Proof.
  revert seen. induction l as [|y l IH]; intros seen; simpl.
  - constructor.
  - destruct (decide (y ∈ seen)); [apply IH|].
    constructor; [|apply IH].
    rewrite elem_of_drop_duplicates_from, elem_of_cons. tauto.
Qed.

Lemma elem_of_drop_duplicates {A} `{EqDecision A} (l : list A) x :
  x ∈ drop_duplicates l <-> x ∈ l.
Proof.
  unfold drop_duplicates. rewrite elem_of_drop_duplicates_from.
  split; [tauto|]. intros Hx. split; [done|]. apply not_elem_of_nil.
Qed.

(** The active set: the keys of the rows with a positive balance, once
    each. *)
Lemma elem_of_cust_df df k :
  k ∈ cust_df df <->
  exists r, r ∈ df /\ entity_key r = k /\ gt (balance_total r) (of_Z 0) = true.
Proof.
  unfold cust_df. rewrite elem_of_drop_duplicates, list_elem_of_fmap.
  split.
  - intros (r & -> & Hr). apply elem_of_filter_bool in Hr as [Hr Hb].
    now exists r.
  - intros (r & Hr & <- & Hb). exists r. split; [done|].
    now apply elem_of_filter_bool.
Qed.

Lemma NoDup_cust_df df : NoDup (cust_df df).
Proof. apply NoDup_drop_duplicates_from. Qed.

Lemma elem_of_merge_on_key left right r :
  r ∈ merge_on_key left right <-> r ∈ left /\ entity_key r ∈ right.
Proof.
  unfold merge_on_key. rewrite !list_elem_of_In, in_flat_map.
  split.
  - intros (r' & Hr' & Hin). apply in_map_iff in Hin as (k & <- & Hk).
    apply filter_In in Hk as [Hk Heq]. apply bool_decide_eq_true in Heq.
    subst k. done.
  - intros [Hr Hk]. exists r. split; [done|].
    apply in_map_iff. exists (entity_key r). split; [done|].
    apply filter_In. split; [done|].
    now apply bool_decide_eq_true.
Qed.

End Entities.

Section EntityFacts.
Context {K : Type} `{EqDecision K}.
Implicit Types (df : list (@balance_row K)) (r : @balance_row K).

(** A row of the creditors frame is classified at risk exactly when its
    own tail amount and its own balance are positive; its entity is then in
    the active set. *)
Lemma risk_creditors_spec df r :
  r ∈ risk_creditors df <->
  r ∈ df /\ gt (Risk_Amount r) (of_Z 0) = true /\
  gt (balance_total r) (of_Z 0) = true.
Proof.
  unfold risk_creditors. destruct (cust_df df) as [|k ks] eqn:E.
  - rewrite elem_of_filter_bool, andb_true_iff. tauto.
  - rewrite <- E, elem_of_merge_on_key, elem_of_filter_bool, andb_true_iff.
    split; [tauto|]. intros (Hr & Ha & Hb). repeat split; try done.
    apply elem_of_cust_df. now exists r.
Qed.

Lemma risk_creditors_active df r :
  r ∈ risk_creditors df -> entity_key r ∈ cust_df df.
Proof.
  intros (Hr & _ & Hb)%risk_creditors_spec.
  apply elem_of_cust_df. now exists r.
Qed.

(** The receivables frame, when at least one entity is active: the rows
    with a positive tail amount whose entity is in the active set. *)
Lemma high_risk_spec df r :
  cust_df df <> [] ->
  (r ∈ high_risk df <->
   r ∈ df /\ gt (High_Risk_Amount r) (of_Z 0) = true /\
   entity_key r ∈ cust_df df).
Proof.
  intros Hne. unfold high_risk. destruct (cust_df df) as [|k ks] eqn:E; [done|].
  rewrite elem_of_merge_on_key, elem_of_filter_bool. tauto.
Qed.

(** The receivables frame, when no entity is active: the intersection is
    skipped and every row with a positive tail amount stays. *)
Lemma high_risk_no_active df :
  cust_df df = [] ->
  high_risk df =
    List.filter (fun r => gt (High_Risk_Amount r) (of_Z 0)) df.
Proof. intros E. unfold high_risk. now rewrite E. Qed.

End EntityFacts.

(** The example of the specification, with the name column equal to the
    code: A twice with balance 100, B with -5, C with 0. *)
Definition example_balances : list (@balance_row string) :=
  [ BalanceRow "A" "A" (of_Z 0) (of_Z 0) (of_Z 0) (of_Z 100);
    BalanceRow "A" "A" (of_Z 0) (of_Z 0) (of_Z 0) (of_Z 100);
    BalanceRow "B" "B" (of_Z 0) (of_Z 0) (of_Z 0) (of_Z (-5));
    BalanceRow "C" "C" (of_Z 0) (of_Z 0) (of_Z 0) (of_Z 0) ].

(** C8: the active-entity count is the length of a duplicate-free list
    that holds exactly the (code, name) pairs of the rows whose balance is
    strictly positive; on the example of the specification it is 1. *)
Theorem total_customers_spec :
  (forall (K : Type) (HK : EqDecision K) (df : list (@balance_row K)),
     total_customers df = length (cust_df df) /\
     NoDup (cust_df df) /\
     forall k, k ∈ cust_df df <->
       exists r, r ∈ df /\ entity_key r = k /\
                 gt (balance_total r) (of_Z 0) = true) /\
  total_customers example_balances = 1%nat.
Proof.
  split.
  - intros K HK df. split; [done|]. split; [apply NoDup_cust_df|].
    intros k. apply elem_of_cust_df.
  - vm_compute. reflexivity.
Qed.

(** A customer whose only row has 50 in the 61-90 bucket and a balance of
    zero, and the same row read as a creditor with the 50 in the 91-120
    bucket. *)
Definition settled_customer : @balance_row string :=
  BalanceRow "C001" "Acme" (of_Z 50) (of_Z 0) (of_Z 0) (of_Z 0).

Definition settled_creditor : @balance_row string :=
  BalanceRow "V001" "Acme" (of_Z 0) (of_Z 50) (of_Z 0) (of_Z 0).

(** C1, at the failing input: the receivables frame with the single row
    [settled_customer] has an empty active set, so the merge is skipped and
    the row, whose balance is not positive, is classified high-risk; the
    creditors path excludes the like row. *)
Theorem high_risk_settled_customer :
  gt (High_Risk_Amount settled_customer) (of_Z 0) = true /\
  gt (balance_total settled_customer) (of_Z 0) = false /\
  cust_df [settled_customer] = [] /\
  high_risk [settled_customer] = [settled_customer] /\
  high_risk_count [settled_customer] = 1%nat /\
  risk_creditors [settled_creditor] = [].
Proof. repeat split; vm_compute; reflexivity. Qed.

(** ** Column reconciliation (overduepaymentholista.py, lines 81-101)

    A frame as pandas holds it: the columns in order, each with its label
    and its values.  Labels need not be distinct.  A label is what the
    header cell of the workbook holds: a text or a number (pandas keeps the
    number of a numeric header cell as the label; NaN is the label that
    [.str.strip()] leaves where the label is not a text).  Header cells of
    other kinds, such as dates, are not modelled.  A cell of a workbook
    column is a number (an empty cell is NaN) or a text. *)

Inductive cell :=
  | CNum (x : float)
  | CText (s : string).

Inductive label :=
  | LText (s : string)
  | LNum (x : float).

#[global] Instance float_eq_dec : EqDecision float.
Proof. unfold float. solve_decision. Defined.

#[global] Instance label_eq_dec : EqDecision label.
Proof. solve_decision. Defined.

Definition column : Type := label * list cell.
Definition frame : Type := list column.

(** [df.columns] *)
Definition columns (df : frame) : list label := map fst df.

(** [isinstance(label, str)] *)
Definition is_text (l : label) : bool :=
  match l with
  | LText _ => true
  | LNum _ => false
  end.

(** One label under [.str.strip()]: a text is stripped, a label that is
    not a text becomes NaN. *)
Definition strip_label (l : label) : label :=
  match l with
  | LText s => LText (PyStr.strip s)
  | LNum _ => LNum S754_nan
  end.

(** The frame with every label stripped. *)
Definition stripped (df : frame) : frame :=
  map (fun c : column => (strip_label (fst c), snd c)) df.

(** What the [.str] accessor raises on an index that holds no text (the
    wording is that of pandas 2). *)
Definition not_string_values : exn :=
  Exn (OtherError "AttributeError")
    "Can only use .str accessor with string values!".

(** [df.columns = df.columns.str.strip()]: the index has the [.str]
    accessor when at least one label is a text; an index of numbers has
    none, and the attribute access raises.  (The pages reconcile frames
    that are not empty: they return at [if df.empty].) *)
Definition strip_columns (df : frame) : result frame :=
  if existsb is_text (columns df) then Ok (stripped df)
  else Raise not_string_values.

(** [name in df.columns], for a text [name]. *)
Definition has_column (name : string) (df : frame) : bool :=
  bool_decide (LText name ∈ columns df).

Section Reconcile.

(** What [pd.to_numeric] reads in a text: [Some] number, or [None] when
    the text does not parse.  The parser is pandas' own. *)
Variable parse_number : string -> option float.

(** [pd.to_numeric(..., errors='coerce')] on one cell. *)
Definition to_numeric (c : cell) : float :=
  match c with
  | CNum x => x
  | CText s => default S754_nan (parse_number s)
  end.

(** [.fillna(0)] on one value. *)
Definition fillna0 (x : float) : float :=
  if isna x then of_Z 0 else x.

(** [pd.to_numeric(..., errors='coerce').fillna(0)], cell by cell. *)
Definition coerce (c : cell) : float := fillna0 (to_numeric c).

(** [df[name] = pd.to_numeric(df[name], errors='coerce').fillna(0)].
    With the label present once, [df[name]] is a Series and the column is
    replaced; present several times, [df[name]] is a DataFrame, which
    [pd.to_numeric] refuses; absent, [df[name]] raises KeyError. *)
Definition assign_numeric (name : string) (df : frame) : result frame :=
  match List.filter (fun c : column => bool_decide (fst c = LText name)) df with
  | [] => Raise (Exn KeyError name)
  | [_] =>
      Ok (map (fun c : column =>
                 if bool_decide (fst c = LText name)
                 then (fst c, map (fun v => CNum (coerce v)) (snd c))
                 else c) df)
  | _ =>
      Raise (Exn TypeError "arg must be a list, tuple, 1-d array, or Series")
  end.

(** [if name in df.columns: df[name] = ...] *)
Definition assign_numeric_if_present (name : string) (df : frame)
  : result frame :=
  if has_column name df then assign_numeric name df else Ok df.

(** [for col in cols: if col in df.columns: df[col] = ...] *)
Fixpoint coerce_columns (cols : list string) (df : frame) : result frame :=
  match cols with
  | [] => Ok df
  | col :: cols' =>
      df' ← assign_numeric_if_present col df; coerce_columns cols' df'
  end.

Definition aging_cols : list string :=
  ["0 To 10 Days"; "11 To 25 Days"; "26 To 45 Days"; "46 To 60 Days";
   "61 To 90 Days"; "91 To 120 Days"; "121 Days and above"].

(** The loop that builds [actual_aging_cols]. *)
Definition actual_aging_cols (df : frame) : list string :=
  flat_map
    (fun col_name =>
       if has_column col_name df then [col_name]
       else if has_column (PyStr.strip col_name) df
            then [PyStr.strip col_name]
            else [])
    aging_cols.

(** Lines 86-101: the labels are stripped, the ageing columns found are
    coerced, then Balance/G.Total. *)
Definition reconcile (df0 : frame) : result frame :=
  df ← strip_columns df0;
  let actual := actual_aging_cols df in
  let cols := match actual with [] => aging_cols | _ => actual end in
  df1 ← coerce_columns cols df;
  assign_numeric_if_present "Balance/G.Total" df1.

(** The numeric columns that reconciliation expects. *)
Definition numeric_cols : list string := aging_cols ++ ["Balance/G.Total"].

End Reconcile.

(** *** What reconciliation yields *)

Section ReconcileFacts.
Variable parse_number : string -> option float.


(** How often a text occurs among the labels. *)
Definition occurrences (name : string) (df : frame) : nat :=
  length (List.filter (fun c : column => bool_decide (fst c = LText name)) df).

(** Every expected numeric label occurs at most once after stripping. *)
Definition numeric_labels_unique (df0 : frame) : bool :=
  forallb (fun name => (occurrences name (stripped df0) <=? 1)%nat)
    numeric_cols.

(** Whether [sel] selects a label: a text that [sel] accepts. *)
Definition selects (sel : string -> bool) (l : label) : bool :=
  match l with
  | LText name => sel name
  | LNum _ => false
  end.

(** The frame with the columns selected by [sel] coerced. *)
Definition coerced_where (sel : string -> bool) (df : frame) : frame :=
  map (fun c : column =>
         if selects sel (fst c)
         then (fst c, map (fun v => CNum (coerce parse_number v)) (snd c))
         else c) df.

(** The reconciled frame: stripped labels, and numbers in every expected
    numeric column. *)
Definition reconciled (df0 : frame) : frame :=
  coerced_where (fun name => bool_decide (name ∈ numeric_cols))
    (stripped df0).

Lemma coerce_not_nan v : isna (coerce parse_number v) = false.
Proof.
  unfold coerce, fillna0.
  now destruct (isna (to_numeric parse_number v)) eqn:E.
Qed.

Lemma coerce_idem v :
  coerce parse_number (CNum (coerce parse_number v)) = coerce parse_number v.
Proof.
  pose proof (coerce_not_nan v) as Hv.
  unfold coerce at 1. simpl. unfold fillna0. now rewrite Hv.
Qed.

Lemma bool_decide_LText (n name : string) :
  bool_decide (LText n = LText name) = bool_decide (n = name).
Proof. apply bool_decide_ext. split; [now intros [= ->]|now intros ->]. Qed.

Lemma columns_coerced_where sel df : columns (coerced_where sel df) = columns df.
Proof.
  unfold columns, coerced_where. rewrite map_map. apply map_ext.
  intros c. now destruct (selects sel (fst c)).
Qed.

Lemma coerced_where_ext sel1 sel2 df :
  (forall name, LText name ∈ columns df -> sel1 name = sel2 name) ->
  coerced_where sel1 df = coerced_where sel2 df.
Proof.
  intros Hsel. unfold coerced_where. apply map_ext_in. intros [[n|x] vals] Hc.
  - simpl. rewrite (Hsel n); [done|].
    unfold columns. apply list_elem_of_fmap. exists (LText n, vals).
    now rewrite list_elem_of_In.
  - done.
Qed.

Lemma coerced_where_none df : coerced_where (fun _ => false) df = df.
Proof.
  unfold coerced_where. rewrite <- (map_id df) at 2. apply map_ext.
  now intros [[n|x] vals].
Qed.

Lemma occurrences_coerced_where name sel df :
  occurrences name (coerced_where sel df) = occurrences name df.
Proof.
  unfold occurrences, coerced_where.
  induction df as [|c df IH]; [done|]. simpl.
  destruct (selects sel (fst c)); simpl;
    destruct (bool_decide (fst c = LText name)); simpl; now rewrite IH.
Qed.

Lemma occurrences_0 name df :
  occurrences name df = 0%nat <-> LText name ∉ columns df.
Proof.
  unfold occurrences, columns. induction df as [|c df IH]; simpl.
  - split; [intros _; apply not_elem_of_nil|done].
  - rewrite not_elem_of_cons.
    destruct (bool_decide_reflect (fst c = LText name)).
    + simpl. split; [done|]. intros [Hne _]. done.
    + rewrite IH. split; [intros Hn; split; [congruence|done]|tauto].
Qed.

Lemma occurrences_pos name df :
  LText name ∈ columns df -> (1 <= occurrences name df)%nat.
Proof.
  intros Hin. destruct (occurrences name df) eqn:E; [|lia].
  now apply occurrences_0 in E.
Qed.

(** One guarded assignment, on a frame where some columns are coerced
    already. *)
Lemma assign_numeric_if_present_coerced name sel df :
  (occurrences name df <= 1)%nat ->
  assign_numeric_if_present parse_number name (coerced_where sel df) =
  Ok (coerced_where (fun n => sel n || bool_decide (n = name)) df).
Proof.
  intros Hocc. unfold assign_numeric_if_present, has_column.
  rewrite columns_coerced_where.
  destruct (bool_decide_reflect (LText name ∈ columns df)) as [Hin|Hout].
  - pose proof (occurrences_pos _ _ Hin) as Hpos.
    pose proof (occurrences_coerced_where name sel df) as Hlen.
    unfold assign_numeric. unfold occurrences in Hlen at 1.
    destruct (List.filter _ (coerced_where sel df)) as [|x [|y l]];
      simpl in Hlen; try lia.
    f_equal. unfold coerced_where. rewrite map_map. apply map_ext.
    intros [[n|x'] vals]; simpl; [|done].
    rewrite <- (bool_decide_LText n name).
    destruct (sel n); simpl.
    + destruct (bool_decide (LText n = LText name)); [|done].
      f_equal. rewrite map_map. apply map_ext. intros v.
      now rewrite coerce_idem.
    + now destruct (bool_decide (LText n = LText name)).
  - f_equal. apply coerced_where_ext. intros n Hn.
    destruct (bool_decide_reflect (n = name)) as [->|_]; [done|].
    now rewrite orb_false_r.
Qed.

Lemma coerce_columns_coerced cols : forall sel df,
  (forall name, name ∈ cols -> (occurrences name df <= 1)%nat) ->
  coerce_columns parse_number cols (coerced_where sel df) =
  Ok (coerced_where (fun n => sel n || bool_decide (n ∈ cols)) df).
Proof.
  induction cols as [|col cols IH]; intros sel df Hocc.
  - simpl. f_equal. apply coerced_where_ext. intros n _.
    now rewrite orb_false_r.
  - simpl. rewrite assign_numeric_if_present_coerced
      by (apply Hocc; left).
    simpl. rewrite IH by (intros name Hn; apply Hocc; now right).
    f_equal. apply coerced_where_ext. intros n _.
    rewrite <- orb_assoc. f_equal.
    destruct (bool_decide_reflect (n = col)) as [->|Hne].
    + simpl. symmetry. apply bool_decide_eq_true_2. left.
    + simpl. apply bool_decide_ext. rewrite elem_of_cons. tauto.
Qed.

Lemma aging_cols_stripped : Forall (fun c => PyStr.strip c = c) aging_cols.
Proof. repeat constructor. Qed.

(** The labels found are the expected ones that the frame has. *)
Lemma actual_aging_cols_filter df :
  actual_aging_cols df = List.filter (fun c => has_column c df) aging_cols.
Proof.
  unfold actual_aging_cols.
  induction aging_cols_stripped as [|c cols Hc _ IH]; [done|].
  simpl. rewrite Hc, IH. now destruct (has_column c df).
Qed.

Lemma elem_of_actual_aging_cols df n :
  n ∈ actual_aging_cols df <-> n ∈ aging_cols /\ LText n ∈ columns df.
Proof.
  rewrite actual_aging_cols_filter, elem_of_filter_bool.
  unfold has_column. now rewrite bool_decide_eq_true.
Qed.

Lemma numeric_labels_unique_spec df0 name :
  numeric_labels_unique df0 = true -> name ∈ numeric_cols ->
  (occurrences name (stripped df0) <= 1)%nat.
Proof.
  unfold numeric_labels_unique. rewrite forallb_forall.
  intros Hall Hin. apply Nat.leb_le, Hall. now apply list_elem_of_In.
Qed.

Lemma select_numeric (cols : list string) n :
  (n ∈ cols <-> n ∈ aging_cols) ->
  false || bool_decide (n ∈ cols) || bool_decide (n = "Balance/G.Total") =
  bool_decide (n ∈ numeric_cols).
Proof.
  intros Hiff. unfold numeric_cols.
  destruct (bool_decide_reflect (n ∈ aging_cols ++ ["Balance/G.Total"]))
    as [Hin|Hout].
  - apply elem_of_app in Hin as [Hin|Hin].
    + rewrite (bool_decide_eq_true_2 (n ∈ cols)); [done|tauto].
    + apply list_elem_of_singleton in Hin as ->.
      rewrite (bool_decide_eq_true_2 (_ = _)); [|done].
      now rewrite orb_true_r.
  - rewrite elem_of_app, list_elem_of_singleton in Hout.
    rewrite (bool_decide_eq_false_2 (n ∈ cols)) by tauto.
    rewrite (bool_decide_eq_false_2 (n = _)) by tauto. done.
Qed.

(** The lines after the stripping, on the stripped frame. *)
Lemma reconcile_stripped df0 :
  existsb is_text (columns df0) = true ->
  reconcile parse_number df0 =
    (let df := stripped df0 in
     let actual := actual_aging_cols df in
     let cols := match actual with [] => aging_cols | _ => actual end in
     df1 ← coerce_columns parse_number cols df;
     assign_numeric_if_present parse_number "Balance/G.Total" df1).
Proof. intros Htext. unfold reconcile, strip_columns. now rewrite Htext. Qed.

(** A header without any text: the stripping raises. *)
Lemma reconcile_no_text df0 :
  existsb is_text (columns df0) = false ->
  reconcile parse_number df0 = Raise not_string_values.
Proof. intros Htext. unfold reconcile, strip_columns. now rewrite Htext. Qed.

(** With a text in the header and every expected label present at most
    once, reconciliation returns the reconciled frame. *)
Lemma reconcile_unique df0 :
  existsb is_text (columns df0) = true ->
  numeric_labels_unique df0 = true ->
  reconcile parse_number df0 = Ok (reconciled df0).
Proof.
  intros Htext Huniq. rewrite (reconcile_stripped _ Htext). unfold reconciled.
  set (df := stripped df0). cbv zeta.
  assert (forall name, name ∈ numeric_cols ->
            (occurrences name df <= 1)%nat) as Hocc
    by (intros name; now apply numeric_labels_unique_spec).
  assert (forall cols : list string,
            (forall n, n ∈ cols -> n ∈ aging_cols) ->
            (forall n, LText n ∈ columns df -> n ∈ aging_cols -> n ∈ cols) ->
            (df1 ← coerce_columns parse_number cols df;
             assign_numeric_if_present parse_number "Balance/G.Total" df1) =
            Ok (coerced_where
                  (fun name => bool_decide (name ∈ numeric_cols)) df))
    as Hcols.
  { intros cols Hsub Hsup.
    rewrite <- (coerced_where_none df) at 1.
    rewrite coerce_columns_coerced.
    2:{ intros name Hn. apply Hocc, elem_of_app. left. now apply Hsub. }
    simpl. rewrite assign_numeric_if_present_coerced.
    2:{ apply Hocc, elem_of_app. right. now apply list_elem_of_singleton. }
    f_equal. apply coerced_where_ext. intros n Hn.
    apply select_numeric. split; [apply Hsub|now apply Hsup]. }
  destruct (actual_aging_cols df) as [|c cs] eqn:E.
  - apply Hcols; done.
  - rewrite <- E. apply Hcols.
    + intros n Hn. now apply elem_of_actual_aging_cols in Hn.
    + intros n Hn Ha. now apply elem_of_actual_aging_cols.
Qed.

End ReconcileFacts.

(** The no-break space U+00A0, in UTF-8. *)
Definition nbsp : string :=
  String (ascii_of_nat 194) (String (ascii_of_nat 160) "").

(** A workbook whose header row has the balance column twice, once with a
    trailing blank. *)
Definition padded_twice : frame :=
  [(LText "Balance/G.Total", [CNum (of_Z 100)]);
   (LText "Balance/G.Total ", [CNum (of_Z 100)])].

(** C5 as stated fails: after stripping, both columns are labelled
    Balance/G.Total, [df['Balance/G.Total']] is a DataFrame and
    [pd.to_numeric] raises TypeError. *)
Lemma reconcile_padded_twice :
  reconcile (fun _ => None) padded_twice =
  Raise (Exn TypeError "arg must be a list, tuple, 1-d array, or Series").
Proof. vm_compute. reflexivity. Qed.

(** C5 (amended): for a dataset whose header row holds at least one text
    and in which every expected numeric label occurs at most once after
    stripping, reconciliation does not raise and returns the frame with
    stripped labels in which every value of every expected numeric column
    is [coerce] of the old value: a number that is not NaN, zero where the
    old value is missing or fails to parse.  A column labelled
    " Balance/G.Total ", or Balance/G.Total followed by a no-break space,
    is recognised as Balance/G.Total.  A dataset whose header cells are all
    numbers raises AttributeError when the labels are stripped. *)
Theorem reconcile_spec (parse_number : string -> option float) (df0 : frame) :
  (existsb is_text (columns df0) = true ->
   numeric_labels_unique df0 = true ->
   reconcile parse_number df0 = Ok (reconciled parse_number df0)) /\
  (forall name vals,
     (LText name, vals) ∈ reconciled parse_number df0 ->
     name ∈ numeric_cols ->
     exists olds, (exists name0, (LText name0, olds) ∈ df0 /\
                                 PyStr.strip name0 = name) /\
       vals = map (fun v => CNum (coerce parse_number v)) olds) /\
  (forall v,
     isna (coerce parse_number v) = false /\
     coerce parse_number v =
       match v with
       | CNum x => if isna x then of_Z 0 else x
       | CText s =>
           match parse_number s with
           | Some x => if isna x then of_Z 0 else x
           | None => of_Z 0
           end
       end) /\
  (forall s label0,
     parse_number s = None ->
     label0 ∈ [" Balance/G.Total "; "Balance/G.Total" +:+ nbsp] ->
     reconcile parse_number
       [(LText label0, [CText s; CNum S754_nan; CNum (of_Z 5)])] =
     Ok [(LText "Balance/G.Total",
          [CNum (of_Z 0); CNum (of_Z 0); CNum (of_Z 5)])]) /\
  (df0 <> [] -> (forall l, l ∈ columns df0 -> is_text l = false) ->
   reconcile parse_number df0 = Raise not_string_values).
Proof.
  split; [apply reconcile_unique|]. split; [|split; [|split]].
  - intros name vals Hin Hname.
    unfold reconciled, coerced_where, stripped in Hin.
    rewrite map_map in Hin.
    apply list_elem_of_fmap in Hin as ([[n0|x0] olds] & Heq & Hc);
      simpl in Heq; [|done].
    destruct (bool_decide_reflect (PyStr.strip n0 ∈ numeric_cols)) as [_|Hout].
    + injection Heq as -> ->. exists olds. split; [|done]. now exists n0.
    + injection Heq as -> _. done.
  - intros v. split; [apply coerce_not_nan|].
    unfold coerce, fillna0. destruct v as [x|s]; simpl; [done|].
    now destruct (parse_number s).
  - intros s label0 Hs Hl.
    assert (PyStr.strip label0 = "Balance/G.Total") as Hstrip.
    { apply elem_of_cons in Hl as [->|Hl];
        [|apply list_elem_of_singleton in Hl as ->];
        vm_compute; reflexivity. }
    rewrite reconcile_unique.
    + unfold reconciled, coerced_where, stripped, coerce, fillna0. simpl.
      rewrite Hstrip, Hs. reflexivity.
    + reflexivity.
    + unfold numeric_labels_unique, occurrences, stripped. simpl.
      rewrite Hstrip. vm_compute. reflexivity.
  - intros _ Hnone. apply reconcile_no_text.
    destruct (existsb is_text (columns df0)) eqn:E; [|done].
    apply existsb_exists in E as (l & Hl & Ht).
    apply list_elem_of_In in Hl. now rewrite (Hnone l Hl) in Ht.
Qed.

Lemma reconcile_spec_witness :
  reconcile (fun _ => None)
    [(LText " Balance/G.Total ", [CText "n/a"; CNum (of_Z 5)])] =
  Ok (reconciled (fun _ => None)
        [(LText " Balance/G.Total ", [CText "n/a"; CNum (of_Z 5)])]).
Proof.
  apply (proj1 (reconcile_spec (fun _ => None) _));
    vm_compute; reflexivity.
Defined.

(** ** Overdue sales orders (pages/holistafile.py, lines 217-268)

    A line of the open-sales-order frame with the columns this page reads.
    Dates are pandas Timestamps, in nanoseconds since the epoch; [None] is
    NaT.  Which of the columns the workbook has is recorded once for the
    frame, since the page tests [col in overdue_df.columns]; the frames
    that reach the page are those that [load_sales_data] returns. *)

Record so_line := SoLine {
  line_status : cell;
  open_qty : cell;
  line_total : cell;
  posting_date : option Z;
  due_date : option Z
}.

Record so_frame := SoFrame {
  has_line_status : bool;
  has_open_qty : bool;
  has_line_total : bool;
  has_posting_date : bool;
  has_due_date : bool;
  lines : list so_line
}.

(** The open-sales-order workbook as [read_excel] decodes it: the columns
    the page reads, and whether it has the two columns of the state
    fallback. *)
Record sales_workbook := SalesWorkbook {
  order_lines : so_frame;
  has_ship_to_state : bool;
  has_ship_to_city : bool
}.

(** [load_sales_data] (lines 127-139), once the workbook is decoded.
    [df['Posting Date']] raises KeyError when the workbook has no such
    column, and so do the two columns of the state fallback, in this order;
    [pd.to_datetime] leaves a Timestamp and NaT as they are.  The Overdue
    Days column that is dropped and the Display_State column that is added
    are not among the columns of [so_frame]. *)
Definition load_sales_data (w : sales_workbook) : result so_frame :=
  let df := order_lines w in
  if negb (has_posting_date df) then Raise (Exn KeyError "Posting Date")
  else if negb (has_ship_to_state w) then
    Raise (Exn KeyError "Ship-To-State")
  else if negb (has_ship_to_city w) then Raise (Exn KeyError "Ship-to-city")
  else Ok df.

(** One day, in nanoseconds. *)
Definition day_ns : Z := 86400000000000.

(** [bins] and [labels] of the ageing chart. *)
Definition bins : list Z := [0; 15; 30; 60; 90; 9999].
Definition labels : list string :=
  ["1-15 Days"; "16-30 Days"; "31-60 Days"; "61-90 Days"; "90+ Days"].

(** [pd.cut(x, bins, right=True)] on one value: the index of the interval
    (lo, hi] of consecutive edges that holds it, if any. *)
Fixpoint cut_from (i : nat) (edges : list Z) (x : Z) : option nat :=
  match edges with
  | lo :: (hi :: _) as rest =>
      if (lo <? x) && (x <=? hi) then Some i else cut_from (S i) rest x
  | _ => None
  end.

(** A missing value falls in no interval. *)
Definition cut (edges : list Z) (x : option Z) : option nat :=
  match x with
  | Some d => cut_from 0 edges d
  | None => None
  end.


Section SalesOrders.

Variable parse_number : string -> option float.

(** [str(x)] of a float, as [astype(str)] writes a numeric cell. *)
Variable str_of_float : float -> string.

(** [astype(str)] on one cell. *)
Definition astype_str (c : cell) : string :=
  match c with
  | CText s => s
  | CNum x => str_of_float x
  end.

(** [overdue_df['Line Status'].astype(str).str.strip().eq('O')] *)
Definition is_open (r : so_line) : bool :=
  bool_decide (PyStr.strip (astype_str (line_status r)) = "O").

(** [pd.to_numeric(col, errors='coerce').fillna(0) > 0] *)
Definition positive (c : cell) : bool := gt (coerce parse_number c) (of_Z 0).

(** Lines 225-233: the three filters, each applied when its column is
    there. *)
Definition open_lines (df : so_frame) : list so_line :=
  let l0 := lines df in
  let l1 := if has_line_status df then List.filter is_open l0 else l0 in
  let l2 :=
    if has_open_qty df
    then List.filter (fun r => positive (open_qty r)) l1 else l1 in
  if has_line_total df
  then List.filter (fun r => positive (line_total r)) l2 else l2.

(** [(today - posting).dt.days] on one line: whole days, rounded down;
    missing when the posting date is NaT. *)
Definition days_since (today : Z) (r : so_line) : option Z :=
  match posting_date r with
  | Some t => Some ((today - t) / day_ns)
  | None => None
  end.

(** Lines 236-242: the Overdue Days column of the selected lines. *)
Definition Overdue_Days (today : Z) (df : so_frame) : list (option Z) :=
  if has_posting_date df
  then map (days_since today) (open_lines df)
  else map (fun _ => Some 0) (open_lines df).

(** The Overdue Days column of the page, from the workbook: the load
    (line 218), then lines 225-242. *)
Definition page_Overdue_Days (today : Z) (w : sales_workbook)
  : result (list (option Z)) :=
  df ← load_sales_data w; Ok (Overdue_Days today df).





(** [overdue_df['Age Bucket']], as the index of the label. *)
Definition Age_Bucket (p : so_line * option Z) : option nat :=
  cut bins (snd p).


End SalesOrders.

(** *** Selection, age and buckets *)



(** What the load returns is the decoded workbook, and it has the Posting
    Date column. *)
Lemma load_sales_data_ok_inv w df :
  load_sales_data w = Ok df -> df = order_lines w /\ has_posting_date df = true.
Proof.
  unfold load_sales_data.
  destruct (has_posting_date (order_lines w)) eqn:Hp; [|done].
  destruct (has_ship_to_state w), (has_ship_to_city w); try done.
  now intros [= <-].
Qed.

Lemma load_sales_data_ok w :
  has_posting_date (order_lines w) = true ->
  has_ship_to_state w = true -> has_ship_to_city w = true ->
  load_sales_data w = Ok (order_lines w).
Proof. intros Hp Hs Hc. unfold load_sales_data. now rewrite Hp, Hs, Hc. Qed.

Lemma load_sales_data_undated w :
  has_posting_date (order_lines w) = false ->
  load_sales_data w = Raise (Exn KeyError "Posting Date").
Proof. intros Hp. unfold load_sales_data. now rewrite Hp. Qed.

Section SalesOrderFacts.
Variable parse_number : string -> option float.
Variable str_of_float : float -> string.





(** With the Posting Date column, the age of every selected line is
    [days_since]. *)
Lemma Overdue_Days_dated today df :
  has_posting_date df = true ->
  Overdue_Days parse_number str_of_float today df =
    map (days_since today) (open_lines parse_number str_of_float df).
Proof. intros Hp. unfold Overdue_Days. now rewrite Hp. Qed.

(** The page never takes the zero fallback. *)
Lemma page_Overdue_Days_eq today w :
  page_Overdue_Days parse_number str_of_float today w =
    (df ← load_sales_data w;
     Ok (map (days_since today) (open_lines parse_number str_of_float df))).
Proof.
  unfold page_Overdue_Days.
  destruct (load_sales_data w) as [df|e] eqn:Hload; [|done].
  cbn [mbind result_bind]. f_equal.
  apply Overdue_Days_dated. now apply load_sales_data_ok_inv in Hload.
Qed.

(** Whole days, rounded down. *)
Lemma days_since_whole today r t :
  posting_date r = Some t ->
  exists q, days_since today r = Some q /\
            day_ns * q <= today - t < day_ns * (q + 1).
Proof.
  intros Ht. unfold days_since. rewrite Ht. eexists. split; [done|].
  unfold day_ns.
  pose proof (Z.div_mod (today - t) 86400000000000).
  pose proof (Z.mod_pos_bound (today - t) 86400000000000). lia.
Qed.

End SalesOrderFacts.

(** Comparisons with literals that [lia] settles in the context. *)
Ltac settle_comparisons :=
  repeat match goal with
         | |- context [(?a <? ?b)] =>
             first [ rewrite (proj2 (Z.ltb_lt a b)) by lia
                   | rewrite (proj2 (Z.ltb_ge a b)) by lia ]
         | |- context [(?a <=? ?b)] =>
             first [ rewrite (proj2 (Z.leb_le a b)) by lia
                   | rewrite (proj2 (Z.leb_gt a b)) by lia ]
         end.

(** The five intervals of the ageing chart. *)
Lemma cut_bins_spec d i :
  cut bins (Some d) = Some i <->
  (i = 0%nat /\ 0 < d <= 15) \/ (i = 1%nat /\ 15 < d <= 30) \/
  (i = 2%nat /\ 30 < d <= 60) \/ (i = 3%nat /\ 60 < d <= 90) \/
  (i = 4%nat /\ 90 < d <= 9999).
Proof.
  unfold cut, bins, cut_from.
  assert (d <= 0 \/ 0 < d <= 15 \/ 15 < d <= 30 \/ 30 < d <= 60 \/
          60 < d <= 90 \/ 90 < d <= 9999 \/ 9999 < d) as Hd by lia.
  destruct Hd as [Hd|[Hd|[Hd|[Hd|[Hd|[Hd|Hd]]]]]];
    settle_comparisons; simpl;
    (split; [intros [= <-]; lia | intros; try (f_equal; lia); lia]).
Qed.

(** An open line worth 100 whose posting date is missing, in a frame that
    has the Posting Date column. *)
Definition undated_frame : so_frame :=
  SoFrame true true true true false
    [SoLine (CText "O") (CNum (of_Z 1)) (CNum (of_Z 100)) None None].

(** C2 as stated fails: the line lacks a posting date and its age is
    missing, not zero. *)
Lemma Overdue_Days_undated :
  open_lines (fun _ => None) (fun _ => "") undated_frame =
    lines undated_frame /\
  Overdue_Days (fun _ => None) (fun _ => "") 0 undated_frame = [None].
Proof. split; vm_compute; reflexivity. Qed.

(** C2 (amended): the age of each selected line is the reference date
    minus its posting date in whole days (rounded down), and a line whose
    posting date is missing has a missing age, not zero, which [pd.cut]
    puts in no bucket.  The zero fallback is written for a frame without
    the Posting Date column, and no such frame reaches it:
    [load_sales_data] raises KeyError on a workbook without that column
    (and returns the workbook that has it and the two columns of the state
    fallback), so what the page computes from a workbook is the load's
    exception or the ages counted from the posting dates. *)
Theorem Overdue_Days_spec (parse_number : string -> option float)
    (str_of_float : float -> string) (today : Z) (df : so_frame) :
  (has_posting_date df = true ->
   Overdue_Days parse_number str_of_float today df =
     map (days_since today) (open_lines parse_number str_of_float df)) /\
  (forall r t, posting_date r = Some t ->
     exists q, days_since today r = Some q /\
               day_ns * q <= today - t < day_ns * (q + 1)) /\
  (forall r, posting_date r = None ->
     days_since today r = None /\ cut bins (days_since today r) = None) /\
  (forall w,
     (has_posting_date (order_lines w) = false ->
      load_sales_data w = Raise (Exn KeyError "Posting Date")) /\
     (has_posting_date (order_lines w) = true ->
      has_ship_to_state w = true -> has_ship_to_city w = true ->
      load_sales_data w = Ok (order_lines w)) /\
     (load_sales_data w = Ok df ->
      df = order_lines w /\ has_posting_date df = true) /\
     page_Overdue_Days parse_number str_of_float today w =
       (df' ← load_sales_data w;
        Ok (map (days_since today)
              (open_lines parse_number str_of_float df')))).
Proof.
  split; [apply Overdue_Days_dated|].
  split; [apply days_since_whole|]. split.
  - intros r Hr. unfold days_since. now rewrite Hr.
  - intros w. split; [apply load_sales_data_undated|].
    split; [apply load_sales_data_ok|].
    split; [apply load_sales_data_ok_inv|apply page_Overdue_Days_eq].
Qed.

(** An open line posted three and a half days before the reference
    date. *)
Definition dated_frame : so_frame :=
  SoFrame true true true true false
    [SoLine (CText " O ") (CNum (of_Z 1)) (CNum (of_Z 100))
       (Some (- 3 * 86400000000000 - 43200000000000)) None].

Lemma Overdue_Days_spec_witness :
  Overdue_Days (fun _ => None) (fun _ => "") 0 dated_frame =
  map (days_since 0) (open_lines (fun _ => None) (fun _ => "") dated_frame).
Proof.
  apply (proj1 (Overdue_Days_spec (fun _ => None) (fun _ => "") 0 dated_frame)).
  reflexivity.
Defined.









(** ** Fetching the stock-ageing workbook (ftp_data_loader.py and
    pages/holistafile.py, lines 161-208) *)

(** The bytes of a remote file. *)
Definition bytes : Type := string.

(** The line feed. *)
Definition nl : string := String (ascii_of_nat 10) "".

(** [s.lower()], on the ASCII letters. *)
Definition lower (s : string) : string :=
  PyStr.of_list
    (map (fun a =>
            let n := nat_of_ascii a in
            if (65 <=? n)%nat && (n <=? 90)%nat then ascii_of_nat (n + 32)
            else a)
       (PyStr.to_list s)).

(** [s.endswith(suffix)] *)
Definition endswith (suffix s : string) : bool :=
  (PyStr.len suffix <=? PyStr.len s)%nat &&
  bool_decide (PyStr.last_n (PyStr.len suffix) s = suffix).

(** ["/" in s] *)
Definition has_slash (s : string) : bool :=
  existsb (Ascii.eqb "/") (PyStr.to_list s).

(** The list after its first occurrence of [c]. *)
Fixpoint after_first (c : ascii) (l : list ascii) : list ascii :=
  match l with
  | [] => []
  | a :: l' => if Ascii.eqb a c then l' else after_first c l'
  end.

(** [s.rsplit("/", 1)[0]] for an [s] that has a slash: what stands before
    the last one. *)
Definition rsplit_slash_head (s : string) : string :=
  PyStr.of_list (rev (after_first "/" (rev (PyStr.to_list s)))).

(** The classes named in [except (FileNotFoundError, error_perm, OSError,
    ValueError)], with their subclasses. *)
Definition caught (e : exn) : bool :=
  match exn_cls e with
  | FileNotFoundError | error_perm | OSError | ValueError => true
  | _ => false
  end.

(** [add_candidate]: appended when non-empty and new. *)
Definition add_candidate (path : string) (candidate_paths : list string)
  : list string :=
  if bool_decide (path <> "") && negb (bool_decide (path ∈ candidate_paths))
  then candidate_paths ++ [path]
  else candidate_paths.

(** The five well-known file names tried in the directory of the
    configured path. *)
Definition alternate_names : list string :=
  ["Inventory_Ageing_Report.xlsx"; "inventory_ageing_report.csv";
   "stock agenging.xlsx"; "stock ageing.xlsx"; "stock_ageing.xlsx"].

(** The text of the FileNotFoundError raised when no candidate is left;
    [last_error] is [None] when no candidate was tried. *)
Definition not_found_message (candidate_paths : list string)
    (last_error : option exn) : string :=
  let tried :=
    PyStr.join nl
      (map (fun p => "- " +:+ p)
         (List.filter (fun p => bool_decide (p <> "")) candidate_paths)) in
  "Stock ageing file was not found on FTP. "
  +:+ "Update [ftp].inventory in .streamlit/secrets.toml to the correct path."
  +:+ nl +:+ "Tried paths:" +:+ nl +:+ tried +:+ nl
  +:+ "Last error: " +:+ from_option exn_str "None" last_error.

Section Fetch.

(** [st.secrets["ftp"]], when the section exists. *)
Variable ftp_section : option (gmap string string).

(** [ftp.retrbinary] in a session opened with the configured host, user
    and password: the bytes of the remote file, or what ftplib raises. *)
Variable retrbinary : string -> result bytes.

(** [pd.read_excel(BytesIO(data))] and
    [pd.read_csv(StringIO(data.decode("utf-8")))]. *)
Variable pd_read_excel : bytes -> result frame.
Variable pd_read_csv : bytes -> result frame.

Definition _ftp_config : result (gmap string string) :=
  match ftp_section with
  | Some config => Ok config
  | None =>
      Raise (Exn KeyError "Missing [ftp] section in .streamlit/secrets.toml")
  end.

Definition _download_bytes (remote_path : string) : result bytes :=
  config ← _ftp_config;
  let missing key := bool_decide (default "" (config !! key) = "") in
  if missing "host" || missing "user" || missing "password" then
    Raise (Exn ValueError
      "FTP host/user/password is not fully configured in Streamlit secrets.")
  else retrbinary remote_path.

(** [get_ftp_path(secret_key)], without a fallback path. *)
Definition get_ftp_path (secret_key : string) : result string :=
  config ← _ftp_config; Ok (default "" (config !! secret_key)).

Definition read_excel_from_ftp (remote_path : string) : result frame :=
  if bool_decide (remote_path = "") then
    Raise (Exn ValueError "FTP remote path is empty.")
  else data ← _download_bytes remote_path; pd_read_excel data.

Definition read_csv_from_ftp (remote_path : string) : result frame :=
  if bool_decide (remote_path = "") then
    Raise (Exn ValueError "FTP remote path is empty.")
  else data ← _download_bytes remote_path; pd_read_csv data.

Definition read_tabular_from_ftp (remote_path : string) : result frame :=
  if endswith ".csv" (lower remote_path) then read_csv_from_ftp remote_path
  else read_excel_from_ftp remote_path.

(** Lines 164-181: the candidates, in the order in which they are
    tried. *)
Definition candidate_paths : result (list string) :=
  configured_path ← get_ftp_path "inventory";
  stock_ageing ← get_ftp_path "stock_ageing";
  inventory_ageing ← get_ftp_path "inventory_ageing";
  let named :=
    add_candidate inventory_ageing
      (add_candidate stock_ageing (add_candidate configured_path [])) in
  if bool_decide (configured_path <> "") && has_slash configured_path then
    let base_dir := rsplit_slash_head configured_path in
    Ok (fold_left
          (fun acc name => add_candidate (base_dir +:+ "/" +:+ name) acc)
          alternate_names named)
  else Ok named.

(** Lines 183-197: the [for ... else] loop over the candidates still to
    try; [all] is the whole list, for the message. *)
Fixpoint try_candidates (all todo : list string) (last_error : option exn)
  : result frame :=
  match todo with
  | [] =>
      Raise (Exn FileNotFoundError (not_found_message all last_error))
  | remote_path :: todo' =>
      match read_tabular_from_ftp remote_path with
      | Ok df => Ok df
      | Raise exc =>
          if caught exc then try_candidates all todo' (Some exc)
          else Raise exc
      end
  end.

(** [df] as it stands after the loop. *)
Definition fetch_stock_ageing : result frame :=
  paths ← candidate_paths; try_candidates paths paths None.

End Fetch.

(** The numeric columns of the stock-ageing workbook. *)
Definition stock_numeric_cols : list string :=
  ["0-15Qty"; "0-15Value"; "16-30Qty"; "16-30Value"; "31-60Qty";
   "31-60Value"; "61-90Qty"; "61-90Value"; "91-180Qty"; "91-180Value";
   "181-360Qty"; "181-360Value"; "361-720Qty"; "361-720Value"; "721+Qty";
   "721+DaysValue"; "In Stock"; "Inventory Value"].

(** [load_stock_ageing_data]: the fetch, then the coercion of lines
    199-208. *)
Definition load_stock_ageing_data
    (ftp_section : option (gmap string string))
    (retrbinary : string -> result bytes)
    (pd_read_excel pd_read_csv : bytes -> result frame)
    (parse_number : string -> option float) : result frame :=
  df ← fetch_stock_ageing ftp_section retrbinary pd_read_excel pd_read_csv;
  coerce_columns parse_number stock_numeric_cols df.

(** *** The candidates and the loop *)

Section CandidateFacts.
Import PyStrFacts.

Lemma add_candidate_extends p c : exists ext, add_candidate p c = c ++ ext.
Proof.
  unfold add_candidate.
  destruct (_ && _); [now exists [p]|exists []; now rewrite List.app_nil_r].
Qed.

Lemma add_candidate_elem p c q :
  q ∈ add_candidate p c <-> q ∈ c \/ (q = p /\ p <> "").
Proof.
  unfold add_candidate.
  destruct (bool_decide_reflect (p <> "")) as [Hp|Hp]; simpl.
  - destruct (bool_decide_reflect (p ∈ c)) as [Hin|Hout]; simpl.
    + split; [tauto|]. intros [Hq|[-> _]]; done.
    + rewrite elem_of_app, list_elem_of_singleton. tauto.
  - tauto.
Qed.

Lemma add_candidate_wf p c :
  NoDup c /\ "" ∉ c -> NoDup (add_candidate p c) /\ "" ∉ add_candidate p c.
Proof.
  intros [Hnd Hne]. split.
  - unfold add_candidate.
    destruct (bool_decide_reflect (p <> "")) as [Hp|Hp]; simpl; [|done].
    destruct (bool_decide_reflect (p ∈ c)) as [Hin|Hout]; simpl; [done|].
    apply NoDup_app. split; [done|]. split; [|apply NoDup_singleton].
    intros x Hx ->%list_elem_of_singleton. done.
  - rewrite add_candidate_elem. intros [H0|[<- H0]]; done.
Qed.

Lemma fold_add_extends (f : string -> string) names c :
  exists ext,
    fold_left (fun acc name => add_candidate (f name) acc) names c = c ++ ext.
Proof.
  revert c. induction names as [|n names IH]; intros c; simpl.
  - exists []. now rewrite List.app_nil_r.
  - destruct (add_candidate_extends (f n) c) as [e1 ->].
    destruct (IH (c ++ e1)) as [e2 ->]. exists (e1 ++ e2).
    now rewrite List.app_assoc.
Qed.

Lemma fold_add_wf (f : string -> string) names c :
  NoDup c /\ "" ∉ c ->
  let r := fold_left (fun acc name => add_candidate (f name) acc) names c in
  NoDup r /\ "" ∉ r.
Proof.
  revert c. induction names as [|n names IH]; intros c Hc; simpl; [done|].
  apply IH. now apply add_candidate_wf.
Qed.

Lemma fold_add_elem (f : string -> string) names c q :
  q ∈ c \/ (exists n, n ∈ names /\ q = f n /\ f n <> "") ->
  q ∈ fold_left (fun acc name => add_candidate (f name) acc) names c.
Proof.
  revert c. induction names as [|n names IH]; intros c; simpl.
  - intros [Hq|(n & Hn & _)]; [done|]. now apply elem_of_nil in Hn.
  - intros [Hq|(n' & Hn & -> & Hne)]; apply IH.
    + left. apply add_candidate_elem. now left.
    + apply elem_of_cons in Hn as [->|Hn].
      * left. apply add_candidate_elem. now right.
      * right. now exists n'.
Qed.

Lemma slash_name_nonempty base name : base +:+ "/" +:+ name <> "".
Proof. now destruct base. Qed.

(** Every part of a joined list occurs in the join. *)
Lemma join_contains sep (l : list string) x :
  x ∈ l -> exists a b, PyStr.join sep l = a +:+ x +:+ b.
Proof.
  induction l as [|y l IH]; intros Hx; [now apply elem_of_nil in Hx|].
  apply elem_of_cons in Hx as [->|Hx].
  - destruct l as [|z l].
    + exists "", "". simpl. now rewrite PyStrFacts.app_nil_r.
    + exists "", (sep +:+ PyStr.join sep (z :: l)). done.
  - destruct (IH Hx) as (a & b & Hj). destruct l as [|z l].
    + now apply elem_of_nil in Hx.
    + exists (y +:+ sep +:+ a), b.
      change (PyStr.join sep (y :: z :: l))
        with (y +:+ sep +:+ PyStr.join sep (z :: l)).
      now rewrite Hj, !PyStrFacts.app_assoc.
Qed.

(** The message lists every non-empty candidate. *)
Lemma not_found_message_lists paths last_error q :
  q ∈ paths -> q <> "" ->
  exists a b, not_found_message paths last_error = a +:+ "- " +:+ q +:+ b.
Proof.
  intros Hq Hne. unfold not_found_message.
  destruct (join_contains nl
              (map (fun p => "- " +:+ p)
                 (List.filter (fun p => bool_decide (p <> "")) paths))
              ("- " +:+ q)) as (a & b & ->).
  { apply list_elem_of_fmap. exists q. split; [done|].
    apply elem_of_filter_bool. split; [done|now apply bool_decide_eq_true]. }
  exists ("Stock ageing file was not found on FTP. "
          +:+ "Update [ftp].inventory in .streamlit/secrets.toml to the correct path."
          +:+ nl +:+ "Tried paths:" +:+ nl +:+ a),
    (b +:+ nl +:+ "Last error: " +:+ from_option exn_str "None" last_error).
  now rewrite !PyStrFacts.app_assoc.
Qed.

End CandidateFacts.

Section FetchFacts.
Variable ftp_section : option (gmap string string).
Variable retrbinary : string -> result bytes.
Variable pd_read_excel pd_read_csv : bytes -> result frame.

(** One attempt. *)
Definition attempt (remote_path : string) : result frame :=
  read_tabular_from_ftp ftp_section retrbinary pd_read_excel pd_read_csv
    remote_path.

(** The attempt fails with an exception that the loop catches. *)
Definition fails_caught (remote_path : string) : Prop :=
  exists exc, attempt remote_path = Raise exc /\ caught exc = true.

Lemma try_candidates_first_success all pre p post last_error df :
  (forall q, q ∈ pre -> fails_caught q) -> attempt p = Ok df ->
  try_candidates ftp_section retrbinary pd_read_excel pd_read_csv
    all (pre ++ p :: post) last_error = Ok df.
Proof.
  revert last_error. induction pre as [|q pre IH]; intros last_error Hpre Hp.
  - simpl. fold (attempt p). now rewrite Hp.
  - simpl. fold (attempt q).
    destruct (Hpre q) as (exc & -> & ->); [left|].
    apply IH; [|done]. intros q' Hq'. apply Hpre. now right.
Qed.

Lemma try_candidates_uncaught all pre p post last_error exc :
  (forall q, q ∈ pre -> fails_caught q) ->
  attempt p = Raise exc -> caught exc = false ->
  try_candidates ftp_section retrbinary pd_read_excel pd_read_csv
    all (pre ++ p :: post) last_error = Raise exc.
Proof.
  revert last_error. induction pre as [|q pre IH]; intros last_error Hpre Hp Hc.
  - simpl. fold (attempt p). now rewrite Hp, Hc.
  - simpl. fold (attempt q).
    destruct (Hpre q) as (exc' & -> & ->); [left|].
    apply IH; [|done..]. intros q' Hq'. apply Hpre. now right.
Qed.

(** The last error is the exception of the last candidate tried. *)
Lemma try_candidates_all_fail all todo last_error :
  (forall q, q ∈ todo -> fails_caught q) ->
  exists last_error',
    try_candidates ftp_section retrbinary pd_read_excel pd_read_csv
      all todo last_error =
      Raise (Exn FileNotFoundError (not_found_message all last_error')) /\
    (todo = [] -> last_error' = last_error) /\
    (forall q exc, last todo = Some q -> attempt q = Raise exc ->
                   last_error' = Some exc).
Proof.
  revert last_error. induction todo as [|p todo IH]; intros last_error Hall.
  - exists last_error. repeat split; done.
  - simpl. fold (attempt p).
    destruct (Hall p) as (exc & Hp & Hc); [left|]. rewrite Hp, Hc.
    destruct (IH (Some exc)) as (le & Htry & Hnil & Hlast).
    { intros q Hq. apply Hall. now right. }
    exists le. split; [done|]. split; [done|].
    intros q exc' Hq Hexc. destruct todo as [|p' todo'].
    + simpl in Hq. injection Hq as <-. rewrite Hp in Hexc.
      injection Hexc as <-. now apply Hnil.
    + now apply (Hlast q).
Qed.

(** The candidate list built from the three configured paths. *)
Definition candidates_of (configured_path stock_ageing inventory_ageing : string)
  : list string :=
  let named :=
    add_candidate inventory_ageing
      (add_candidate stock_ageing (add_candidate configured_path [])) in
  if bool_decide (configured_path <> "") && has_slash configured_path then
    fold_left
      (fun acc name =>
         add_candidate (rsplit_slash_head configured_path +:+ "/" +:+ name) acc)
      alternate_names named
  else named.

Lemma candidate_paths_eq paths :
  candidate_paths ftp_section = Ok paths ->
  exists config,
    ftp_section = Some config /\
    paths = candidates_of (default "" (config !! "inventory"))
              (default "" (config !! "stock_ageing"))
              (default "" (config !! "inventory_ageing")).
Proof.
  unfold candidate_paths, get_ftp_path, _ftp_config, candidates_of.
  destruct ftp_section as [config|]; [|done].
  cbn [mbind result_bind]. intros Hpaths. exists config. split; [done|].
  destruct (_ && _); now injection Hpaths as <-.
Qed.

(** The candidates: without duplicates and without the empty path; the
    configured path first; the alternates in its directory among them. *)
Lemma candidates_of_wf c s i :
  NoDup (candidates_of c s i) /\ "" ∉ candidates_of c s i.
Proof.
  unfold candidates_of.
  assert (NoDup (add_candidate i (add_candidate s (add_candidate c []))) /\
          "" ∉ add_candidate i (add_candidate s (add_candidate c [])))
    as Hnamed.
  { repeat apply add_candidate_wf.
    split; [constructor|apply not_elem_of_nil]. }
  destruct (_ && _); [|done]. now apply fold_add_wf.
Qed.

Lemma candidates_of_head c s i :
  c <> "" -> exists rest, candidates_of c s i = c :: rest.
Proof.
  intros Hne. unfold candidates_of.
  assert (add_candidate c [] = [c]) as ->.
  { unfold add_candidate. rewrite bool_decide_eq_true_2 by done.
    rewrite bool_decide_eq_false_2 by apply not_elem_of_nil. done. }
  destruct (add_candidate_extends s [c]) as [e1 ->].
  destruct (add_candidate_extends i ([c] ++ e1)) as [e2 ->].
  destruct (_ && _); [|now eexists].
  destruct (fold_add_extends
              (fun name => rsplit_slash_head c +:+ "/" +:+ name)
              alternate_names (([c] ++ e1) ++ e2)) as [e3 ->].
  now eexists.
Qed.

Lemma candidates_of_alternates c s i name :
  c <> "" -> has_slash c = true -> name ∈ alternate_names ->
  (rsplit_slash_head c +:+ "/" +:+ name) ∈ candidates_of c s i.
Proof.
  intros Hne Hslash Hname. unfold candidates_of.
  rewrite bool_decide_eq_true_2, Hslash by done. cbn [andb].
  apply (fold_add_elem (fun name => rsplit_slash_head c +:+ "/" +:+ name)).
  right. exists name. split; [done|]. split; [done|].
  apply slash_name_nonempty.
Qed.

End FetchFacts.

(** The paths handed to [add_candidate], in the order of the calls: the
    values of the three keys, then, when the primary path has a directory,
    the five well-known names in it. *)
Definition proposed_paths (configured_path stock_ageing inventory_ageing : string)
  : list string :=
  [configured_path; stock_ageing; inventory_ageing] ++
  (if bool_decide (configured_path <> "") && has_slash configured_path
   then map (fun name => rsplit_slash_head configured_path +:+ "/" +:+ name)
          alternate_names
   else []).

Lemma drop_duplicates_from_ext {A} `{EqDecision A} (seen1 seen2 l : list A) :
  (forall x, x ∈ seen1 <-> x ∈ seen2) ->
  drop_duplicates_from seen1 l = drop_duplicates_from seen2 l.
Proof.
  revert seen1 seen2. induction l as [|y l IH]; intros seen1 seen2 Hs; [done|].
  simpl. destruct (decide (y ∈ seen1)) as [H1|H1];
    destruct (decide (y ∈ seen2)) as [H2|H2];
    try (exfalso; apply Hs in H1; done);
    try (exfalso; apply Hs in H2; done).
  - now apply IH.
  - f_equal. apply IH. intros x. rewrite !elem_of_cons, Hs. tauto.
Qed.

(** Calling [add_candidate] on each path of a list appends the non-empty
    paths that are new, each once, in the order of the list. *)
Lemma fold_add_candidate l : forall acc,
  fold_left (fun acc p => add_candidate p acc) l acc =
    acc ++ drop_duplicates_from acc
             (List.filter (fun p => bool_decide (p <> "")) l).
Proof.
  induction l as [|p l IH]; intros acc; simpl; [now rewrite List.app_nil_r|].
  rewrite IH. unfold add_candidate.
  destruct (bool_decide_reflect (p <> "")) as [Hp|Hp]; simpl; [|done].
  destruct (decide (p ∈ acc)) as [Hin|Hout].
  - now rewrite bool_decide_eq_true_2.
  - rewrite bool_decide_eq_false_2 by done. simpl.
    rewrite <- List.app_assoc. simpl. do 2 f_equal.
    apply drop_duplicates_from_ext. intros x.
    rewrite elem_of_app, list_elem_of_singleton, elem_of_cons. tauto.
Qed.

Lemma fold_left_add_map (f : string -> string) names : forall acc,
  fold_left (fun acc name => add_candidate (f name) acc) names acc =
  fold_left (fun acc p => add_candidate p acc) (map f names) acc.
Proof. induction names as [|n names IH]; intros acc; simpl; [done|apply IH]. Qed.

(** The candidates are the proposed paths without the empty ones, each at
    its first occurrence. *)
Lemma candidates_of_proposed c s i :
  candidates_of c s i =
    drop_duplicates
      (List.filter (fun p => bool_decide (p <> "")) (proposed_paths c s i)).
Proof.
  unfold drop_duplicates, proposed_paths.
  rewrite <- (app_nil_l (drop_duplicates_from [] _)), <- fold_add_candidate.
  unfold candidates_of. destruct (_ && _).
  - rewrite fold_left_add_map, fold_left_app. reflexivity.
  - reflexivity.
Qed.

(** A configuration whose primary path is /reports/stock.xlsx, and a
    one-column workbook. *)
Definition example_section : option (gmap string string) :=
  Some (list_to_map
          [("host", "ftp.example.org"); ("user", "reports");
           ("password", "secret"); ("inventory", "/reports/stock.xlsx")]).

Definition example_workbook : frame :=
  [(LText "In Stock", [CNum (of_Z 7)])].

(** A server that answers the primary path with a transient 450 reply
    (ftplib.error_temp, which the loop does not catch) and serves every
    other path. *)
Definition retr_transient (remote_path : string) : result bytes :=
  if bool_decide (remote_path = "/reports/stock.xlsx") then
    Raise (Exn (OtherError "ftplib.error_temp")
             "450 Requested file action not taken")
  else Ok "workbook".

(** C4 as stated fails: the second candidate decodes, yet the load ends
    with the exception of the first one; no later candidate is tried and
    no not-found error is raised. *)
Lemma fetch_stops_at_uncaught :
  candidate_paths example_section =
    Ok ["/reports/stock.xlsx"; "/reports/Inventory_Ageing_Report.xlsx";
        "/reports/inventory_ageing_report.csv";
        "/reports/stock agenging.xlsx"; "/reports/stock ageing.xlsx";
        "/reports/stock_ageing.xlsx"] /\
  attempt example_section retr_transient
    (fun _ => Ok example_workbook) (fun _ => Ok example_workbook)
    "/reports/Inventory_Ageing_Report.xlsx" = Ok example_workbook /\
  fetch_stock_ageing example_section retr_transient
    (fun _ => Ok example_workbook) (fun _ => Ok example_workbook) =
    Raise (Exn (OtherError "ftplib.error_temp")
             "450 Requested file action not taken").
Proof. repeat split; vm_compute; reflexivity. Qed.

(** C4 (amended): the candidates are the non-empty paths among the value
    of the inventory key (the primary path), the values of the stock_ageing
    and inventory_ageing keys and, when the primary path has a directory,
    the five well-known names in that directory, in this order and each at
    its first occurrence; so the list has no duplicate and no empty path and
    starts with the primary path.  They are tried in the order of the list.
    The load returns the first candidate that decodes, provided every
    candidate before it failed with FileNotFoundError, error_perm, OSError
    or ValueError; a failure of any other class ends the load with that
    exception.  When every candidate fails with one of the four classes,
    the load raises FileNotFoundError with a message that lists every
    candidate and ends with the error of the last one. *)
Theorem fetch_stock_ageing_spec
    (ftp_section : option (gmap string string))
    (retrbinary : string -> result bytes)
    (pd_read_excel pd_read_csv : bytes -> result frame)
    (paths : list string) :
  candidate_paths ftp_section = Ok paths ->
  (exists configured stock_ageing inventory_ageing,
     get_ftp_path ftp_section "inventory" = Ok configured /\
     get_ftp_path ftp_section "stock_ageing" = Ok stock_ageing /\
     get_ftp_path ftp_section "inventory_ageing" = Ok inventory_ageing /\
     paths =
       drop_duplicates
         (List.filter (fun p => bool_decide (p <> ""))
            (proposed_paths configured stock_ageing inventory_ageing))) /\
  (forall key p,
     key ∈ ["inventory"; "stock_ageing"; "inventory_ageing"] ->
     get_ftp_path ftp_section key = Ok p -> p <> "" -> p ∈ paths) /\
  (NoDup paths /\ "" ∉ paths) /\
  (forall configured,
     get_ftp_path ftp_section "inventory" = Ok configured ->
     configured <> "" ->
     (exists rest, paths = configured :: rest) /\
     (has_slash configured = true ->
      forall name, name ∈ alternate_names ->
        (rsplit_slash_head configured +:+ "/" +:+ name) ∈ paths)) /\
  (forall pre p post df,
     paths = pre ++ p :: post ->
     (forall q, q ∈ pre ->
        fails_caught ftp_section retrbinary pd_read_excel pd_read_csv q) ->
     attempt ftp_section retrbinary pd_read_excel pd_read_csv p = Ok df ->
     fetch_stock_ageing ftp_section retrbinary pd_read_excel pd_read_csv =
       Ok df) /\
  (forall pre p post exc,
     paths = pre ++ p :: post ->
     (forall q, q ∈ pre ->
        fails_caught ftp_section retrbinary pd_read_excel pd_read_csv q) ->
     attempt ftp_section retrbinary pd_read_excel pd_read_csv p = Raise exc ->
     caught exc = false ->
     fetch_stock_ageing ftp_section retrbinary pd_read_excel pd_read_csv =
       Raise exc) /\
  ((forall q, q ∈ paths ->
      fails_caught ftp_section retrbinary pd_read_excel pd_read_csv q) ->
   exists last_error,
     fetch_stock_ageing ftp_section retrbinary pd_read_excel pd_read_csv =
       Raise (Exn FileNotFoundError (not_found_message paths last_error)) /\
     (forall q exc,
        last paths = Some q ->
        attempt ftp_section retrbinary pd_read_excel pd_read_csv q =
          Raise exc ->
        last_error = Some exc) /\
     (paths = [] -> last_error = None) /\
     (forall q, q ∈ paths ->
        exists a b,
          not_found_message paths last_error = a +:+ "- " +:+ q +:+ b)).
Proof.
  intros Hpaths.
  destruct (candidate_paths_eq _ _ Hpaths) as (config & Hsec & Heq).
  pose proof (candidates_of_wf (default "" (config !! "inventory"))
                (default "" (config !! "stock_ageing"))
                (default "" (config !! "inventory_ageing"))) as Hwf.
  rewrite <- Heq in Hwf.
  assert (forall key,
            get_ftp_path ftp_section key = Ok (default "" (config !! key)))
    as Hget by (intros key; unfold get_ftp_path, _ftp_config; now rewrite Hsec).
  assert (forall r,
            fetch_stock_ageing ftp_section retrbinary pd_read_excel
              pd_read_csv = r <->
            try_candidates ftp_section retrbinary pd_read_excel pd_read_csv
              paths paths None = r) as Hfetch.
  { intros r. unfold fetch_stock_ageing. now rewrite Hpaths. }
  split; [|split; [|split; [done|split; [|split; [|split]]]]].
  - eexists _, _, _. repeat (split; [apply Hget|]).
    rewrite Heq. apply candidates_of_proposed.
  - intros key p Hkey. rewrite Hget. intros [= <-] Hne.
    rewrite Heq, candidates_of_proposed, elem_of_drop_duplicates.
    apply elem_of_filter_bool. split; [|now apply bool_decide_eq_true].
    unfold proposed_paths. apply elem_of_app. left.
    repeat (apply elem_of_cons in Hkey as [->|Hkey];
            [repeat constructor|]).
    now apply elem_of_nil in Hkey.
  - intros configured. rewrite Hget. intros [= <-] Hne.
    subst paths. split.
    + now apply candidates_of_head.
    + intros Hslash name Hname. now apply candidates_of_alternates.
  - intros pre p post df -> Hpre Hp. apply Hfetch.
    now apply try_candidates_first_success.
  - intros pre p post exc -> Hpre Hp Hc. apply Hfetch.
    now apply try_candidates_uncaught.
  - intros Hall.
    destruct (try_candidates_all_fail ftp_section retrbinary pd_read_excel
                pd_read_csv paths paths None Hall)
      as (last_error & Htry & Hnil & Hlast).
    exists last_error. split; [now apply Hfetch|]. split; [done|].
    split; [done|]. intros q Hq. apply not_found_message_lists; [done|].
    intros ->. now destruct Hwf.
Qed.

(** A server on which the first two candidates do not exist (550) and the
    third does. *)
Definition retr_third (remote_path : string) : result bytes :=
  if bool_decide (remote_path = "/reports/inventory_ageing_report.csv")
  then Ok "a,b"
  else Raise (Exn error_perm "550 File not found").

Lemma fetch_stock_ageing_spec_witness :
  fetch_stock_ageing example_section retr_third
    (fun _ => Ok example_workbook) (fun _ => Ok example_workbook) =
  Ok example_workbook.
Proof.
  refine (proj1 (proj2 (proj2 (proj2 (proj2
    (fetch_stock_ageing_spec example_section retr_third
       (fun _ => Ok example_workbook) (fun _ => Ok example_workbook)
       ["/reports/stock.xlsx"; "/reports/Inventory_Ageing_Report.xlsx";
        "/reports/inventory_ageing_report.csv";
        "/reports/stock agenging.xlsx"; "/reports/stock ageing.xlsx";
        "/reports/stock_ageing.xlsx"] _)))))
    ["/reports/stock.xlsx"; "/reports/Inventory_Ageing_Report.xlsx"]
    "/reports/inventory_ageing_report.csv"
    ["/reports/stock agenging.xlsx"; "/reports/stock ageing.xlsx";
     "/reports/stock_ageing.xlsx"]
    example_workbook _ _ _).
  - vm_compute. reflexivity.
  - reflexivity.
  - intros q Hq. exists (Exn error_perm "550 File not found").
    apply elem_of_cons in Hq as [->|Hq];
      [|apply list_elem_of_singleton in Hq as ->];
      split; vm_compute; reflexivity.
  - vm_compute. reflexivity.
Defined.

(** ** The quantity formatters (pages/holistafile.py, lines 85-98;
    salesorderholista.py, lines 53-61) *)

Definition format_quantity (qty : float) : result string :=
  if isna qty then Ok "0" else format_number qty false true.

(** The wrapper kept for older callers. *)
Definition format_cases_display (cases : float) : result string :=
  format_quantity cases.

Section FormatterFacts.
Import PyStr PyStrFacts.

Lemma to_int_finite x : is_finite x = true -> exists i, to_int x = Ok i.
Proof. destruct x; try done; intros _; eexists; reflexivity. Qed.

Lemma format_indian_finite x :
  is_finite x = true -> exists s, format_indian x = Ok s.
Proof.
  intros Hx. destruct (to_int_finite x Hx) as [i Hi].
  rewrite (format_indian_unfold _ _ Hi).
  destruct (_ =? _)%N; [now eexists|].
  destruct (_ <=? _)%nat; now eexists.
Qed.

(** An infinite magnitude reaches the first threshold. *)
Lemma ge_abs_infinity s : ge (abs (S754_infinity s)) (of_Z 10000000) = true.
Proof. vm_compute. reflexivity. Qed.

(** The abbreviating path returns on every input. *)
Lemma format_number_short_ok num currency :
  exists s, format_number num currency true = Ok s.
Proof.
  destruct (isna num) eqn:Hna.
  - exists "0". unfold format_number. now rewrite Hna.
  - rewrite (format_number_cases _ _ Hna).
    destruct (ge (abs num) (of_Z 10000000)) eqn:H7; [now eexists|].
    destruct (ge (abs num) (of_Z 100000)); [now eexists|].
    destruct (ge (abs num) (of_Z 1000)); [now eexists|].
    rewrite (format_number_full _ _ Hna).
    assert (is_finite num = true) as Hfin.
    { destruct num as [s|s| |s m e]; try done.
      all: now rewrite ge_abs_infinity in H7. }
    destruct (format_indian_finite num Hfin) as [s ->]. now eexists.
Qed.

(** X1: [format_number] raises on one kind of input only: an infinite
    number with abbreviation off, where [int(num)] raises OverflowError.
    With abbreviation on it returns a string for every float, the
    infinities and NaN included. *)
Theorem format_number_raises (num : float) (currency short : bool) :
  ((exists e, format_number num currency short = Raise e) <->
   short = false /\ exists s, num = S754_infinity s) /\
  (forall e, format_number num currency short = Raise e ->
     exn_cls e = OverflowError).
Proof.
  assert (forall e, format_number num currency short = Raise e ->
            short = false /\ exists s, num = S754_infinity s) as Hraise.
  { intros e He. destruct short.
    - destruct (format_number_short_ok num currency) as [s Hs]. congruence.
    - split; [done|]. destruct (isna num) eqn:Hna.
      + unfold format_number in He. now rewrite Hna in He.
      + rewrite (format_number_full _ _ Hna) in He.
        destruct num as [s|s| |s m e']; [|now exists s|done|].
        * now destruct (format_indian_finite (S754_zero s) eq_refl) as [x Hx];
            rewrite Hx in He.
        * now destruct (format_indian_finite (S754_finite s m e') eq_refl)
            as [x Hx]; rewrite Hx in He. }
  split; [split|].
  - intros [e He]. now apply (Hraise e).
  - intros [-> [s ->]]. eexists. now destruct s.
  - intros e He. destruct (Hraise e He) as [-> [s ->]].
    destruct s; now injection He as <-.
Qed.

(** Away from NaN, [num >= 0] fails exactly on the negative numbers, and a
    number with a non-zero integer part is negative exactly when that part
    is. *)
Lemma sign_of_to_int num i :
  to_int num = Ok i -> i <> 0 -> sign_of num = if i <? 0 then "-" else "".
Proof.
  destruct num as [s|s| |s m e]; try done; intros [= <-]; [done|].
  intros Hnz.
  assert (0 <= Z.shiftl (Z.pos m) e) as Hpos by (apply Z.shiftl_nonneg; lia).
  destruct s; simpl in *.
  - destruct (Z.ltb_spec (- Z.shiftl (Z.pos m) e) 0); [done|lia].
  - destruct (Z.ltb_spec (Z.shiftl (Z.pos m) e) 0); [lia|done].
Qed.

(** X2: [format_indian] reads its argument through [int(num)] only: two
    numbers with the same integer part (the truncation towards zero) are
    written alike, so the fraction never shows and never rounds. *)
Theorem format_indian_truncates (a b : float) (i : Z) :
  to_int a = Ok i -> to_int b = Ok i -> format_indian a = format_indian b.
Proof.
  intros Ha Hb.
  rewrite (format_indian_unfold _ _ Ha), (format_indian_unfold _ _ Hb).
  destruct (N.eqb_spec (Z.abs_N i) 0) as [|Hnz]; [done|].
  rewrite (sign_of_to_int _ _ Ha), (sign_of_to_int _ _ Hb) by lia. done.
Qed.

Lemma format_indian_truncates_witness :
  format_indian (div (of_Z 1999) (of_Z 2)) = format_indian (of_Z 999).
Proof.
  apply (format_indian_truncates _ _ 999); vm_compute; reflexivity.
Defined.

(** X3: the currency flag only puts the rupee sign and a blank in front of
    what the same call without it returns, and raises when that call
    raises; NaN is the exception: it is written "0" without the sign even
    in currency mode. *)
Theorem format_number_currency (num : float) (short : bool) :
  (isna num = false ->
   format_number num true short =
     (body ← format_number num false short; Ok ("₹ " +:+ body))) /\
  (isna num = true -> format_number num true short = Ok "0").
Proof.
  split; intros Hna.
  - destruct short.
    + rewrite !(format_number_cases _ _ Hna), !(format_number_full _ _ Hna).
      repeat match goal with |- context [if ?b then _ else _] =>
        destruct b; [reflexivity|] end.
      now destruct (format_indian num).
    + rewrite !(format_number_full _ _ Hna). now destruct (format_indian num).
  - unfold format_number. now rewrite Hna.
Qed.

Lemma format_number_currency_witness :
  format_number (of_Z 1500000) true true =
    (body ← format_number (of_Z 1500000) false true; Ok ("₹ " +:+ body)).
Proof.
  apply (proj1 (format_number_currency (of_Z 1500000) true)).
  reflexivity.
Defined.

(** X4: [format_quantity] and [format_cases_display] are
    [format_number] without currency and with abbreviation on every input
    (their own NaN test changes nothing), and so never raise. *)
Theorem format_quantity_spec (qty : float) :
  format_quantity qty = format_number qty false true /\
  format_cases_display qty = format_number qty false true /\
  exists s, format_quantity qty = Ok s.
Proof.
  assert (format_quantity qty = format_number qty false true) as H.
  { unfold format_quantity. destruct (isna qty) eqn:Hna; [|done].
    unfold format_number. now rewrite Hna. }
  split; [done|]. split; [done|]. rewrite H. apply format_number_short_ok.
Qed.

End FormatterFacts.

(** ** The workbook loaders (overduepaymentholista.py, lines 63-68;
    pages/overduecreditorholista.py, lines 63-68; pages/holistafile.py,
    lines 150-159) *)

Section Loaders.

Variable ftp_section : option (gmap string string).
Variable retrbinary : string -> result bytes.
Variable pd_read_excel : bytes -> result frame.
Variable parse_number : string -> option float.

Definition load_overdue_payment_data : result frame :=
  remote_path ← get_ftp_path ftp_section "overdue";
  read_excel_from_ftp ftp_section retrbinary pd_read_excel remote_path.

Definition load_overdue_creditor_data : result frame :=
  remote_path ← get_ftp_path ftp_section "overdue_cr";
  read_excel_from_ftp ftp_section retrbinary pd_read_excel remote_path.

(** [load_stock_data]: the workbook, with Quantity and Inventory Value
    coerced when they are there. *)
Definition load_stock_data : result frame :=
  remote_path ← get_ftp_path ftp_section "stock_status";
  df ← read_excel_from_ftp ftp_section retrbinary pd_read_excel remote_path;
  coerce_columns parse_number ["Quantity"; "Inventory Value"] df.

End Loaders.

(** The three credentials are all set and non-empty. *)
Definition credentials_set (config : gmap string string) : Prop :=
  default "" (config !! "host") <> "" /\
  default "" (config !! "user") <> "" /\
  default "" (config !! "password") <> "".

Section DownloadFacts.
Variable ftp_section : option (gmap string string).
Variable retrbinary : string -> result bytes.

(** The download of a path, once the configuration is read. *)
Lemma download_bytes_config config remote_path :
  ftp_section = Some config ->
  _download_bytes ftp_section retrbinary remote_path =
    if bool_decide (credentials_set config) then retrbinary remote_path
    else Raise (Exn ValueError
      "FTP host/user/password is not fully configured in Streamlit secrets.").
Proof.
  intros ->. unfold _download_bytes, _ftp_config, credentials_set.
  cbn [mbind result_bind].
  destruct (bool_decide_reflect (default "" (config !! "host") = ""));
  destruct (bool_decide_reflect (default "" (config !! "user") = ""));
  destruct (bool_decide_reflect (default "" (config !! "password") = ""));
    cbn [orb];
    first [ rewrite bool_decide_eq_true_2 by tauto
          | rewrite bool_decide_eq_false_2 by tauto ]; reflexivity.
Qed.

End DownloadFacts.

Section LoaderFacts.
Variable ftp_section : option (gmap string string).
Variable retrbinary : string -> result bytes.
Variable pd_read_excel : bytes -> result frame.

(** Reading the workbook configured under [key]. *)
Definition load_excel (key : string) : result frame :=
  remote_path ← get_ftp_path ftp_section key;
  read_excel_from_ftp ftp_section retrbinary pd_read_excel remote_path.

Lemma load_excel_ok key df :
  load_excel key = Ok df <->
  exists config path data,
    ftp_section = Some config /\ config !! key = Some path /\ path <> "" /\
    credentials_set config /\
    retrbinary path = Ok data /\ pd_read_excel data = Ok df.
Proof.
  unfold load_excel, get_ftp_path, read_excel_from_ftp.
  destruct ftp_section as [config|] eqn:Hsec; cbn [_ftp_config mbind result_bind].
  2:{ split; [done|]. now intros (c & p & d & H & _). }
  destruct (bool_decide_reflect (default "" (config !! key) = "")) as [He|Hne].
  { split; [done|]. intros (c & p & d & [= <-] & Hk & Hp & _).
    rewrite Hk in He. done. }
  destruct (config !! key) as [path|] eqn:Hk; [|done]. simpl in *.
  rewrite (download_bytes_config (Some config) retrbinary config path)
    by done.
  destruct (bool_decide_reflect (credentials_set config)) as [Hc|Hc].
  - destruct (retrbinary path) as [data|e] eqn:Hr; cbn [mbind result_bind].
    + split.
      * intros Hx. exists config, path, data. done.
      * intros (c & p & d & [= <-] & Hk' & _ & _ & Hr' & Hx).
        rewrite Hk in Hk'. injection Hk' as <-.
        rewrite Hr in Hr'. now injection Hr' as <-.
    + split; [done|].
      intros (c & p & d & [= <-] & Hk' & _ & _ & Hr' & _).
      rewrite Hk in Hk'. injection Hk' as <-.
      rewrite Hr in Hr'. done.
  - split; [done|]. intros (c & p & d & [= <-] & _ & _ & Hc' & _). done.
Qed.

Lemma load_excel_misconfigured key :
  (ftp_section = None ->
   load_excel key =
     Raise (Exn KeyError "Missing [ftp] section in .streamlit/secrets.toml")) /\
  (forall config,
     ftp_section = Some config -> default "" (config !! key) = "" ->
     load_excel key = Raise (Exn ValueError "FTP remote path is empty.")) /\
  (forall config,
     ftp_section = Some config -> default "" (config !! key) <> "" ->
     ~ credentials_set config ->
     load_excel key =
       Raise (Exn ValueError
         "FTP host/user/password is not fully configured in Streamlit secrets.")).
Proof.
  unfold load_excel, get_ftp_path, read_excel_from_ftp.
  split; [|split].
  - now intros ->.
  - intros config Hsec He. rewrite Hsec. cbn [_ftp_config mbind result_bind].
    now rewrite bool_decide_eq_true_2.
  - intros config Hsec Hne Hc.
    rewrite Hsec. cbn [_ftp_config mbind result_bind].
    rewrite bool_decide_eq_false_2 by done.
    rewrite (download_bytes_config (Some config) retrbinary config) by done.
    now rewrite bool_decide_eq_false_2.
Qed.

End LoaderFacts.

(** X5: the receivables and the creditors workbook load exactly when the
    [ftp] section exists, the path key ("overdue", "overdue_cr") is set to a
    non-empty path, host, user and password are all set, the download of
    that path succeeds and the Excel decoder accepts the bytes; the frame
    is then the decoder's. *)
Theorem load_overdue_data_ok
    (ftp_section : option (gmap string string))
    (retrbinary : string -> result bytes)
    (pd_read_excel : bytes -> result frame) (df : frame) :
  (load_overdue_payment_data ftp_section retrbinary pd_read_excel = Ok df <->
   exists config path data,
     ftp_section = Some config /\ config !! "overdue" = Some path /\
     path <> "" /\ credentials_set config /\
     retrbinary path = Ok data /\ pd_read_excel data = Ok df) /\
  (load_overdue_creditor_data ftp_section retrbinary pd_read_excel = Ok df <->
   exists config path data,
     ftp_section = Some config /\ config !! "overdue_cr" = Some path /\
     path <> "" /\ credentials_set config /\
     retrbinary path = Ok data /\ pd_read_excel data = Ok df).
Proof.
  split.
  - exact (load_excel_ok ftp_section retrbinary pd_read_excel "overdue" df).
  - exact (load_excel_ok ftp_section retrbinary pd_read_excel "overdue_cr" df).
Qed.

(** X6: a faulty configuration is reported before the server is contacted,
    in this order: without the [ftp] section the load raises KeyError; with
    the section but the path key missing or empty it raises ValueError
    "FTP remote path is empty." (whatever the credentials); with a path but
    one of host, user and password missing or empty it raises ValueError
    "FTP host/user/password is not fully configured ...". *)
Theorem load_overdue_payment_data_misconfigured
    (ftp_section : option (gmap string string))
    (retrbinary : string -> result bytes)
    (pd_read_excel : bytes -> result frame) :
  (ftp_section = None ->
   load_overdue_payment_data ftp_section retrbinary pd_read_excel =
     Raise (Exn KeyError "Missing [ftp] section in .streamlit/secrets.toml")) /\
  (forall config,
     ftp_section = Some config -> default "" (config !! "overdue") = "" ->
     load_overdue_payment_data ftp_section retrbinary pd_read_excel =
       Raise (Exn ValueError "FTP remote path is empty.")) /\
  (forall config,
     ftp_section = Some config -> default "" (config !! "overdue") <> "" ->
     ~ credentials_set config ->
     load_overdue_payment_data ftp_section retrbinary pd_read_excel =
       Raise (Exn ValueError
         "FTP host/user/password is not fully configured in Streamlit secrets.")).
Proof.
  exact (load_excel_misconfigured ftp_section retrbinary pd_read_excel
           "overdue").
Qed.

(** A configuration with credentials and no path. *)
Definition pathless_section : gmap string string :=
  list_to_map
    [("host", "ftp.example.org"); ("user", "reports"); ("password", "secret")].

Lemma load_overdue_payment_data_misconfigured_witness :
  load_overdue_payment_data (Some pathless_section)
    (fun _ => Ok "workbook") (fun _ => Ok example_workbook) =
  Raise (Exn ValueError "FTP remote path is empty.").
Proof.
  apply (proj1 (proj2 (load_overdue_payment_data_misconfigured
           (Some pathless_section) (fun _ => Ok "workbook")
           (fun _ => Ok example_workbook))) pathless_section);
    [reflexivity|vm_compute; reflexivity].
Defined.

(** ** The decoder chosen by [read_tabular_from_ftp] *)

Section Dispatch.
Import PyStr PyStrFacts.

Lemma lower_app a b : lower (a +:+ b) = lower a +:+ lower b.
Proof.
  unfold lower. now rewrite to_list_app, map_app, of_list_app.
Qed.

Lemma last_n_app k a b :
  (k <= len b)%nat -> last_n k (a +:+ b) = last_n k b.
Proof.
  intros Hk. unfold last_n. rewrite len_app, to_list_app. f_equal.
  replace (len a + len b - k)%nat with (length (to_list a) + (len b - k))%nat
    by (unfold len in *; lia).
  now rewrite drop_app_add.
Qed.

Lemma last_n_all s : last_n (len s) s = s.
Proof.
  unfold last_n. rewrite Nat.sub_diag. simpl. apply of_to.
Qed.

Lemma endswith_app suffix a : endswith suffix (a +:+ suffix) = true.
Proof.
  unfold endswith. rewrite len_app, last_n_app, last_n_all by done.
  rewrite bool_decide_eq_true_2 by done.
  rewrite andb_true_r. apply Nat.leb_le. lia.
Qed.

Lemma len_lower s : len (lower s) = len s.
Proof. unfold lower. rewrite len_of_list, length_map. done. Qed.

(** A name with an extension of four characters other than "csv". *)
Lemma endswith_csv_other a ext :
  len ext = 5%nat -> last_n 4 (lower ext) <> ".csv" ->
  endswith ".csv" (lower (a +:+ ext)) = false.
Proof.
  intros Hlen Hne. unfold endswith. rewrite lower_app.
  change (len ".csv") with 4%nat.
  rewrite last_n_app by (rewrite len_lower; lia).
  rewrite bool_decide_eq_false_2 by done. apply andb_false_r.
Qed.

End Dispatch.

(** X7: [read_tabular_from_ftp] chooses the decoder by the end of the
    path, whatever the case of the letters: a path that ends in ".csv",
    ".CSV", ".Csv" or any other spelling of it is read with the CSV decoder,
    and a path that ends in ".xlsx" with the Excel decoder. *)
Theorem read_tabular_from_ftp_dispatch
    (ftp_section : option (gmap string string))
    (retrbinary : string -> result bytes)
    (pd_read_excel pd_read_csv : bytes -> result frame) (stem : string) :
  (forall ext, lower ext = ".csv" ->
     read_tabular_from_ftp ftp_section retrbinary pd_read_excel pd_read_csv
       (stem +:+ ext) =
     read_csv_from_ftp ftp_section retrbinary pd_read_csv (stem +:+ ext)) /\
  read_tabular_from_ftp ftp_section retrbinary pd_read_excel pd_read_csv
    (stem +:+ ".xlsx") =
  read_excel_from_ftp ftp_section retrbinary pd_read_excel (stem +:+ ".xlsx").
Proof.
  unfold read_tabular_from_ftp. split.
  - intros ext Hext. now rewrite lower_app, Hext, endswith_app.
  - rewrite endswith_csv_other; [done|done|]. vm_compute. done.
Qed.

Lemma read_tabular_from_ftp_dispatch_witness :
  read_tabular_from_ftp example_section (fun _ => Ok "a,b")
    (fun _ => Ok []) (fun _ => Ok example_workbook) ("/reports/Stock" +:+ ".CSV") =
  read_csv_from_ftp example_section (fun _ => Ok "a,b")
    (fun _ => Ok example_workbook) ("/reports/Stock" +:+ ".CSV").
Proof.
  apply (proj1 (read_tabular_from_ftp_dispatch example_section
           (fun _ => Ok "a,b") (fun _ => Ok []) (fun _ => Ok example_workbook)
           "/reports/Stock")).
  vm_compute. reflexivity.
Defined.

(** ** More on the stock-ageing candidates and the loop over them *)

Section CandidateBounds.
Import PyStr PyStrFacts.

Lemma add_candidate_length p c :
  (length (add_candidate p c) <= S (length c))%nat.
Proof.
  unfold add_candidate. destruct (_ && _); [|lia].
  rewrite length_app. simpl. lia.
Qed.

Lemma fold_add_length (f : string -> string) names c :
  (length (fold_left (fun acc name => add_candidate (f name) acc) names c)
   <= length c + length names)%nat.
Proof.
  revert c. induction names as [|n names IH]; intros c; simpl; [lia|].
  specialize (IH (add_candidate (f n) c)).
  pose proof (add_candidate_length (f n) c). lia.
Qed.

Lemma fold_add_elem_inv (f : string -> string) names c q :
  q ∈ fold_left (fun acc name => add_candidate (f name) acc) names c ->
  q ∈ c \/ exists n, n ∈ names /\ q = f n.
Proof.
  revert c. induction names as [|n names IH]; intros c; simpl; [now left|].
  intros Hq. apply IH in Hq as [Hq|(n' & Hn & ->)].
  - apply add_candidate_elem in Hq as [Hq|[-> _]]; [now left|].
    right. exists n. split; [left|done].
  - right. exists n'. split; [now right|done].
Qed.

Lemma candidates_of_length c s i : (length (candidates_of c s i) <= 8)%nat.
Proof.
  unfold candidates_of.
  pose proof (add_candidate_length c []) as H1.
  pose proof (add_candidate_length s (add_candidate c [])) as H2.
  pose proof (add_candidate_length i
                (add_candidate s (add_candidate c []))) as H3.
  simpl in H1.
  destruct (_ && _); [|lia].
  pose proof (fold_add_length
                (fun name => rsplit_slash_head c +:+ "/" +:+ name)
                alternate_names
                (add_candidate i (add_candidate s (add_candidate c []))))
    as H4.
  change (length alternate_names) with 5%nat in H4. lia.
Qed.

Lemma candidates_of_elem_inv c s i q :
  q ∈ candidates_of c s i ->
  q = c \/ q = s \/ q = i \/
  (c <> "" /\ has_slash c = true /\
   exists name, name ∈ alternate_names /\
                q = rsplit_slash_head c +:+ "/" +:+ name).
Proof.
  unfold candidates_of.
  assert (forall q, q ∈ add_candidate i (add_candidate s (add_candidate c []))
                    -> q = c \/ q = s \/ q = i) as Hnamed.
  { intros q' Hq'.
    apply add_candidate_elem in Hq' as [Hq'|[-> _]]; [|tauto].
    apply add_candidate_elem in Hq' as [Hq'|[-> _]]; [|tauto].
    apply add_candidate_elem in Hq' as [Hq'|[-> _]]; [|tauto].
    now apply elem_of_nil in Hq'. }
  destruct (bool_decide_reflect (c <> "")) as [Hc|Hc]; cbn [andb].
  - destruct (has_slash c) eqn:Hs.
    + intros Hq.
      apply (fold_add_elem_inv
               (fun name => rsplit_slash_head c +:+ "/" +:+ name)) in Hq
        as [Hq|(n & Hn & ->)].
      * apply Hnamed in Hq. tauto.
      * right. right. right. split; [done|]. split; [done|]. now exists n.
    + intros Hq. apply Hnamed in Hq. tauto.
  - intros Hq. apply Hnamed in Hq. tauto.
Qed.

(** [after_first] on a list whose first part lacks the character. *)
Lemma after_first_app c l1 l2 :
  existsb (Ascii.eqb c) l1 = false ->
  after_first c (l1 ++ c :: l2) = l2.
Proof.
  induction l1 as [|a l1 IH]; simpl.
  - intros _. now rewrite Ascii.eqb_refl.
  - intros [Ha Hl]%orb_false_iff. rewrite Ascii.eqb_sym, Ha. now apply IH.
Qed.

Lemma existsb_rev {A} (f : A -> bool) l : existsb f (rev l) = existsb f l.
Proof.
  induction l as [|a l IH]; [done|]. simpl.
  rewrite existsb_app, IH. simpl. rewrite orb_false_r. apply orb_comm.
Qed.

(** The directory of a path: what stands before the file name. *)
Lemma rsplit_slash_head_join dir file :
  has_slash file = false -> rsplit_slash_head (dir +:+ "/" +:+ file) = dir.
Proof.
  intros Hf. unfold rsplit_slash_head, has_slash in *.
  rewrite !to_list_app. simpl. rewrite rev_app_distr. simpl.
  rewrite <- List.app_assoc. simpl.
  rewrite after_first_app by now rewrite existsb_rev.
  rewrite rev_involutive. apply of_to.
Qed.

Lemma has_slash_join dir file : has_slash (dir +:+ "/" +:+ file) = true.
Proof.
  unfold has_slash. rewrite !to_list_app, existsb_app. simpl.
  apply orb_true_r.
Qed.

End CandidateBounds.

(** X8: the loader tries at most eight paths, and only paths that the
    configuration gives: every candidate is non-empty and is the value of
    one of the keys "inventory", "stock_ageing" and "inventory_ageing", or one
    of the five well-known file names in the directory of the "inventory"
    path, which then is non-empty and has a slash. *)
Theorem candidate_paths_sound (ftp_section : option (gmap string string))
    (paths : list string) :
  candidate_paths ftp_section = Ok paths ->
  (length paths <= 8)%nat /\
  exists config,
    ftp_section = Some config /\
    forall q, q ∈ paths ->
      q <> "" /\
      (q = default "" (config !! "inventory") \/
       q = default "" (config !! "stock_ageing") \/
       q = default "" (config !! "inventory_ageing") \/
       (default "" (config !! "inventory") <> "" /\
        has_slash (default "" (config !! "inventory")) = true /\
        exists name,
          name ∈ alternate_names /\
          q = rsplit_slash_head (default "" (config !! "inventory"))
                +:+ "/" +:+ name)).
Proof.
  intros Hpaths.
  destruct (candidate_paths_eq _ _ Hpaths) as (config & Hsec & ->).
  split; [apply candidates_of_length|].
  exists config. split; [done|]. intros q Hq. split.
  - intros ->. now apply (proj2 (candidates_of_wf _ _ _)) in Hq.
  - now apply candidates_of_elem_inv.
Qed.

Lemma candidate_paths_sound_witness :
  (length ["/reports/stock.xlsx"; "/reports/Inventory_Ageing_Report.xlsx";
           "/reports/inventory_ageing_report.csv";
           "/reports/stock agenging.xlsx"; "/reports/stock ageing.xlsx";
           "/reports/stock_ageing.xlsx"] <= 8)%nat.
Proof.
  apply (candidate_paths_sound example_section). vm_compute. reflexivity.
Defined.

(** X9: when the "inventory" key holds dir/file, with a file name that has
    no slash, the five well-known names are tried in that same directory
    dir; the directory is what stands before the last slash, the empty
    string for a file in the root. *)
Theorem candidate_paths_directory (config : gmap string string)
    (dir file : string) (paths : list string) :
  config !! "inventory" = Some (dir +:+ "/" +:+ file) ->
  has_slash file = false ->
  candidate_paths (Some config) = Ok paths ->
  rsplit_slash_head (dir +:+ "/" +:+ file) = dir /\
  (exists rest, paths = (dir +:+ "/" +:+ file) :: rest) /\
  forall name, name ∈ alternate_names -> (dir +:+ "/" +:+ name) ∈ paths.
Proof.
  intros Hinv Hfile Hpaths.
  pose proof (rsplit_slash_head_join dir file Hfile) as Hdir.
  destruct (candidate_paths_eq _ _ Hpaths) as (config' & [= <-] & ->).
  rewrite Hinv. simpl.
  assert (dir +:+ "/" +:+ file <> "") as Hne by apply slash_name_nonempty.
  split; [done|]. split; [now apply candidates_of_head|].
  intros name Hname. rewrite <- Hdir at 1.
  apply candidates_of_alternates; [done|apply has_slash_join|done].
Qed.

Lemma candidate_paths_directory_witness :
  rsplit_slash_head ("/reports" +:+ "/" +:+ "stock.xlsx") = "/reports" /\
  (exists rest,
     ["/reports/stock.xlsx"; "/reports/Inventory_Ageing_Report.xlsx";
      "/reports/inventory_ageing_report.csv";
      "/reports/stock agenging.xlsx"; "/reports/stock ageing.xlsx";
      "/reports/stock_ageing.xlsx"] =
     ("/reports" +:+ "/" +:+ "stock.xlsx") :: rest) /\
  forall name, name ∈ alternate_names ->
    ("/reports" +:+ "/" +:+ name) ∈
      ["/reports/stock.xlsx"; "/reports/Inventory_Ageing_Report.xlsx";
       "/reports/inventory_ageing_report.csv";
       "/reports/stock agenging.xlsx"; "/reports/stock ageing.xlsx";
       "/reports/stock_ageing.xlsx"].
Proof.
  apply (candidate_paths_directory
           (list_to_map
              [("host", "ftp.example.org"); ("user", "reports");
               ("password", "secret"); ("inventory", "/reports/stock.xlsx")])
           "/reports" "stock.xlsx");
    vm_compute; reflexivity.
Defined.

Section LoopOutcomes.
Variable ftp_section : option (gmap string string).
Variable retrbinary : string -> result bytes.
Variable pd_read_excel pd_read_csv : bytes -> result frame.

Lemma try_candidates_ok_inv all todo last_error df :
  try_candidates ftp_section retrbinary pd_read_excel pd_read_csv
    all todo last_error = Ok df ->
  exists pre p post,
    todo = pre ++ p :: post /\
    (forall q, q ∈ pre ->
       fails_caught ftp_section retrbinary pd_read_excel pd_read_csv q) /\
    attempt ftp_section retrbinary pd_read_excel pd_read_csv p = Ok df.
Proof.
  revert last_error. induction todo as [|p todo IH]; intros last_error; [done|].
  simpl.
  fold (attempt ftp_section retrbinary pd_read_excel pd_read_csv p).
  destruct (attempt ftp_section retrbinary pd_read_excel pd_read_csv p)
    as [df'|exc] eqn:Hp.
  - intros [= ->]. exists [], p, todo. split; [done|]. split; [|done].
    intros q Hq. now apply elem_of_nil in Hq.
  - destruct (caught exc) eqn:Hc; [|done]. intros Htry.
    destruct (IH _ Htry) as (pre & p' & post & -> & Hpre & Hp').
    exists (p :: pre), p', post. split; [done|]. split; [|done].
    intros q [->|Hq]%elem_of_cons; [now exists exc|now apply Hpre].
Qed.

Lemma try_candidates_raise_inv all todo last_error e :
  try_candidates ftp_section retrbinary pd_read_excel pd_read_csv
    all todo last_error = Raise e ->
  (exists pre p post,
     todo = pre ++ p :: post /\
     (forall q, q ∈ pre ->
        fails_caught ftp_section retrbinary pd_read_excel pd_read_csv q) /\
     attempt ftp_section retrbinary pd_read_excel pd_read_csv p = Raise e /\
     caught e = false) \/
  ((forall q, q ∈ todo ->
      fails_caught ftp_section retrbinary pd_read_excel pd_read_csv q) /\
   exists last_error',
     e = Exn FileNotFoundError (not_found_message all last_error')).
Proof.
  revert last_error. induction todo as [|p todo IH]; intros last_error.
  - simpl. intros [= <-]. right. split; [|now eexists].
    intros q Hq. now apply elem_of_nil in Hq.
  - simpl.
    fold (attempt ftp_section retrbinary pd_read_excel pd_read_csv p).
    destruct (attempt ftp_section retrbinary pd_read_excel pd_read_csv p)
      as [df'|exc] eqn:Hp; [done|].
    destruct (caught exc) eqn:Hc.
    + intros Htry.
      destruct (IH _ Htry) as [(pre & p' & post & -> & Hpre & Hp' & Hc')
                              |[Hall Hmsg]].
      * left. exists (p :: pre), p', post. split; [done|].
        split; [|done].
        intros q [->|Hq]%elem_of_cons; [now exists exc|now apply Hpre].
      * right. split; [|done].
        intros q [->|Hq]%elem_of_cons; [now exists exc|now apply Hall].
    + intros [= <-]. left. exists [], p, todo. split; [done|].
      split; [|done]. intros q Hq. now apply elem_of_nil in Hq.
Qed.

End LoopOutcomes.

(** X10: a frame that the stock-ageing fetch returns is always the decoded
    file of one of the candidates, the first one in the order of the list
    that does not fail: every candidate before it failed with an exception
    of the four caught classes. *)
Theorem fetch_stock_ageing_ok_inv
    (ftp_section : option (gmap string string))
    (retrbinary : string -> result bytes)
    (pd_read_excel pd_read_csv : bytes -> result frame) (df : frame) :
  fetch_stock_ageing ftp_section retrbinary pd_read_excel pd_read_csv = Ok df ->
  exists pre p post,
    candidate_paths ftp_section = Ok (pre ++ p :: post) /\
    (forall q, q ∈ pre ->
       fails_caught ftp_section retrbinary pd_read_excel pd_read_csv q) /\
    read_tabular_from_ftp ftp_section retrbinary pd_read_excel pd_read_csv p
      = Ok df.
Proof.
  unfold fetch_stock_ageing.
  destruct (candidate_paths ftp_section) as [paths|e]; [|done].
  cbn [mbind result_bind]. intros Htry.
  destruct (try_candidates_ok_inv _ _ _ _ _ _ _ _ Htry)
    as (pre & p & post & -> & Hpre & Hp).
  now exists pre, p, post.
Qed.

Lemma fetch_stock_ageing_ok_inv_witness :
  exists pre p post,
    candidate_paths example_section = Ok (pre ++ p :: post) /\
    (forall q, q ∈ pre ->
       fails_caught example_section retr_third
         (fun _ => Ok example_workbook) (fun _ => Ok example_workbook) q) /\
    read_tabular_from_ftp example_section retr_third
      (fun _ => Ok example_workbook) (fun _ => Ok example_workbook) p
      = Ok example_workbook.
Proof.
  apply (fetch_stock_ageing_ok_inv example_section retr_third
           (fun _ => Ok example_workbook) (fun _ => Ok example_workbook)
           example_workbook).
  vm_compute. reflexivity.
Defined.

(** X11: the stock-ageing fetch fails in one of three ways only: with the
    KeyError of the missing [ftp] section; with the exception of the first
    candidate that fails outside the four caught classes, all candidates
    before it having failed inside them; or, every candidate having failed
    inside the four classes, with the FileNotFoundError that carries the
    list of the paths tried. *)
Theorem fetch_stock_ageing_raise_inv
    (ftp_section : option (gmap string string))
    (retrbinary : string -> result bytes)
    (pd_read_excel pd_read_csv : bytes -> result frame) (e : exn) :
  fetch_stock_ageing ftp_section retrbinary pd_read_excel pd_read_csv
    = Raise e ->
  (ftp_section = None /\
   e = Exn KeyError "Missing [ftp] section in .streamlit/secrets.toml") \/
  (exists pre p post,
     candidate_paths ftp_section = Ok (pre ++ p :: post) /\
     (forall q, q ∈ pre ->
        fails_caught ftp_section retrbinary pd_read_excel pd_read_csv q) /\
     read_tabular_from_ftp ftp_section retrbinary pd_read_excel pd_read_csv p
       = Raise e /\
     caught e = false) \/
  (exists paths last_error,
     candidate_paths ftp_section = Ok paths /\
     (forall q, q ∈ paths ->
        fails_caught ftp_section retrbinary pd_read_excel pd_read_csv q) /\
     e = Exn FileNotFoundError (not_found_message paths last_error)).
Proof.
  unfold fetch_stock_ageing.
  destruct (candidate_paths ftp_section) as [paths|e'] eqn:Hpaths.
  - cbn [mbind result_bind]. intros Htry. right.
    destruct (try_candidates_raise_inv _ _ _ _ _ _ _ _ Htry)
      as [(pre & p & post & -> & Hpre & Hp & Hc)|[Hall [le ->]]].
    + left. now exists pre, p, post.
    + right. now exists paths, le.
  - cbn [mbind result_bind]. intros [= ->]. left.
    unfold candidate_paths, get_ftp_path, _ftp_config in Hpaths.
    destruct ftp_section as [config|]; cbn [mbind result_bind] in Hpaths.
    + now destruct (_ && _).
    + now injection Hpaths as <-.
Qed.

Lemma fetch_stock_ageing_raise_inv_witness :
  (@None (gmap string string) = None /\
   Exn KeyError "Missing [ftp] section in .streamlit/secrets.toml" =
   Exn KeyError "Missing [ftp] section in .streamlit/secrets.toml") \/
  (exists pre p post,
     candidate_paths None = Ok (pre ++ p :: post) /\
     (forall q, q ∈ pre ->
        fails_caught None retr_third
          (fun _ => Ok example_workbook) (fun _ => Ok example_workbook) q) /\
     read_tabular_from_ftp None retr_third
       (fun _ => Ok example_workbook) (fun _ => Ok example_workbook) p
       = Raise (Exn KeyError "Missing [ftp] section in .streamlit/secrets.toml") /\
     caught (Exn KeyError "Missing [ftp] section in .streamlit/secrets.toml")
       = false) \/
  (exists paths last_error,
     candidate_paths None = Ok paths /\
     (forall q, q ∈ paths ->
        fails_caught None retr_third
          (fun _ => Ok example_workbook) (fun _ => Ok example_workbook) q) /\
     Exn KeyError "Missing [ftp] section in .streamlit/secrets.toml" =
     Exn FileNotFoundError (not_found_message paths last_error)).
Proof.
  apply (fetch_stock_ageing_raise_inv None retr_third
           (fun _ => Ok example_workbook) (fun _ => Ok example_workbook)).
  reflexivity.
Defined.

(** X12: with the [ftp] section present and none of the keys "inventory",
    "stock_ageing" and "inventory_ageing" set to a non-empty path, there is
    no candidate: the fetch contacts no server and raises FileNotFoundError
    with an empty list of tried paths and "Last error: None". *)
Theorem fetch_stock_ageing_unconfigured (config : gmap string string)
    (retrbinary : string -> result bytes)
    (pd_read_excel pd_read_csv : bytes -> result frame) :
  default "" (config !! "inventory") = "" ->
  default "" (config !! "stock_ageing") = "" ->
  default "" (config !! "inventory_ageing") = "" ->
  candidate_paths (Some config) = Ok [] /\
  fetch_stock_ageing (Some config) retrbinary pd_read_excel pd_read_csv =
    Raise (Exn FileNotFoundError
      ("Stock ageing file was not found on FTP. "
       +:+ "Update [ftp].inventory in .streamlit/secrets.toml to the correct path."
       +:+ nl +:+ "Tried paths:" +:+ nl +:+ nl +:+ "Last error: None")).
Proof.
  intros H1 H2 H3.
  assert (candidate_paths (Some config) = Ok []) as Hpaths.
  { unfold candidate_paths, get_ftp_path. cbn [_ftp_config mbind result_bind].
    rewrite H1, H2, H3. reflexivity. }
  split; [done|]. unfold fetch_stock_ageing. rewrite Hpaths. reflexivity.
Qed.

Lemma fetch_stock_ageing_unconfigured_witness :
  candidate_paths (Some pathless_section) = Ok [] /\
  fetch_stock_ageing (Some pathless_section) retr_third
    (fun _ => Ok example_workbook) (fun _ => Ok example_workbook) =
    Raise (Exn FileNotFoundError
      ("Stock ageing file was not found on FTP. "
       +:+ "Update [ftp].inventory in .streamlit/secrets.toml to the correct path."
       +:+ nl +:+ "Tried paths:" +:+ nl +:+ nl +:+ "Last error: None")).
Proof.
  apply (fetch_stock_ageing_unconfigured pathless_section);
    vm_compute; reflexivity.
Defined.

(** What [_download_bytes] raises when a credential is missing. *)
Definition not_configured : exn :=
  Exn ValueError
    "FTP host/user/password is not fully configured in Streamlit secrets.".

Section IncompleteCredentials.
Variable ftp_section : option (gmap string string).
Variable retrbinary : string -> result bytes.
Variable pd_read_excel pd_read_csv : bytes -> result frame.

Lemma attempt_not_configured config p :
  ftp_section = Some config -> ~ credentials_set config -> p <> "" ->
  attempt ftp_section retrbinary pd_read_excel pd_read_csv p =
    Raise not_configured.
Proof.
  intros Hsec Hc Hp.
  pose proof (download_bytes_config ftp_section retrbinary config p Hsec)
    as Hd.
  rewrite bool_decide_eq_false_2 in Hd by done.
  unfold attempt, read_tabular_from_ftp, read_csv_from_ftp,
    read_excel_from_ftp.
  rewrite bool_decide_eq_false_2 by done. rewrite Hd.
  now destruct (endswith _ _).
Qed.

(** Every candidate fails with the same caught exception. *)
Lemma try_candidates_same_error all todo last_error exc :
  todo <> [] -> caught exc = true ->
  (forall q, q ∈ todo ->
     attempt ftp_section retrbinary pd_read_excel pd_read_csv q = Raise exc) ->
  try_candidates ftp_section retrbinary pd_read_excel pd_read_csv
    all todo last_error =
    Raise (Exn FileNotFoundError (not_found_message all (Some exc))).
Proof.
  revert last_error.
  induction todo as [|p todo IH]; intros last_error Hne Hc Hall; [done|].
  simpl. fold (attempt ftp_section retrbinary pd_read_excel pd_read_csv p).
  rewrite (Hall p) by left. rewrite Hc.
  destruct todo as [|p' todo']; [done|].
  apply IH; [done|done|]. intros q Hq. apply Hall. now right.
Qed.

End IncompleteCredentials.

(** X13: on the Stock Ageing page a missing credential does not surface as
    the ValueError that the other loaders raise: with a path configured and
    host, user or password missing, every candidate fails with that
    ValueError, the loop catches it each time, and the fetch ends with the
    FileNotFoundError "Stock ageing file was not found on FTP ...", whose
    last error is the ValueError.  The server is not contacted. *)
Theorem fetch_stock_ageing_not_configured (config : gmap string string)
    (retrbinary : string -> result bytes)
    (pd_read_excel pd_read_csv : bytes -> result frame)
    (paths : list string) :
  ~ credentials_set config ->
  candidate_paths (Some config) = Ok paths -> paths <> [] ->
  (forall q, q ∈ paths ->
     read_tabular_from_ftp (Some config) retrbinary pd_read_excel pd_read_csv q
       = Raise not_configured) /\
  fetch_stock_ageing (Some config) retrbinary pd_read_excel pd_read_csv =
    Raise (Exn FileNotFoundError
             (not_found_message paths (Some not_configured))).
Proof.
  intros Hc Hpaths Hne.
  assert (forall q, q ∈ paths ->
            attempt (Some config) retrbinary pd_read_excel pd_read_csv q
              = Raise not_configured) as Hall.
  { intros q Hq. apply (attempt_not_configured _ _ _ _ config); [done|done|].
    destruct (candidate_paths_eq _ _ Hpaths) as (config' & _ & ->).
    intros ->. now apply (proj2 (candidates_of_wf _ _ _)) in Hq. }
  split; [exact Hall|].
  unfold fetch_stock_ageing. rewrite Hpaths. cbn [mbind result_bind].
  now apply try_candidates_same_error.
Qed.

(** A configuration with a path and without a password. *)
Definition passwordless_section : gmap string string :=
  list_to_map
    [("host", "ftp.example.org"); ("user", "reports");
     ("inventory", "stock.xlsx")].

Lemma fetch_stock_ageing_not_configured_witness :
  (forall q, q ∈ ["stock.xlsx"] ->
     read_tabular_from_ftp (Some passwordless_section) (fun _ => Ok "workbook")
       (fun _ => Ok example_workbook) (fun _ => Ok example_workbook) q
       = Raise not_configured) /\
  fetch_stock_ageing (Some passwordless_section) (fun _ => Ok "workbook")
    (fun _ => Ok example_workbook) (fun _ => Ok example_workbook) =
    Raise (Exn FileNotFoundError
             (not_found_message ["stock.xlsx"] (Some not_configured))).
Proof.
  apply (fetch_stock_ageing_not_configured passwordless_section).
  - unfold credentials_set. vm_compute. intros (_ & _ & H). now apply H.
  - vm_compute. reflexivity.
  - discriminate.
Defined.

(** ** The lines behind the bars of the ageing chart *)

Section BucketLines.

(** The lines of one bar, and the lines of no bar. *)
Definition in_bucket (i : nat) (p : so_line * option Z) : bool :=
  bool_decide (Age_Bucket p = Some i).

Definition unbucketed (p : so_line * option Z) : bool :=
  bool_decide (Age_Bucket p = None).

Lemma Age_Bucket_range p i : Age_Bucket p = Some i -> (i < 5)%nat.
Proof.
  unfold Age_Bucket. destruct (snd p) as [d|]; [|done].
  intros Hi%cut_bins_spec. lia.
Qed.

Lemma Age_Bucket_None p :
  Age_Bucket p = None <->
  snd p = None \/ exists d, snd p = Some d /\ (d <= 0 \/ 9999 < d).
Proof.
  unfold Age_Bucket. destruct (snd p) as [d|]; [|split; [now left|done]].
  split.
  - intros Hn. right. exists d. split; [done|].
    destruct (Z_le_gt_dec d 0) as [|H0]; [now left|].
    destruct (Z_le_gt_dec d 9999) as [H9|]; [|right; lia].
    exfalso.
    assert (exists i, cut bins (Some d) = Some i) as [i Hi].
    { assert (d <= 15 \/ 15 < d <= 30 \/ 30 < d <= 60 \/ 60 < d <= 90 \/ 90 < d)
        as Hd by lia.
      destruct Hd as [Hd|[Hd|[Hd|[Hd|Hd]]]];
        [exists 0%nat|exists 1%nat|exists 2%nat|exists 3%nat|exists 4%nat];
        apply cut_bins_spec; lia. }
    congruence.
  - intros [Hd|(d' & [= <-] & Hd)]; [done|].
    destruct (cut bins (Some d)) as [i|] eqn:Hi; [|done].
    apply cut_bins_spec in Hi. lia.
Qed.

Lemma bucket_count_cons p rows :
  (length (List.filter unbucketed (p :: rows)) +
   sum_list (map (fun i => length (List.filter (in_bucket i) (p :: rows)))
               (seq 0 5)) =
   S (length (List.filter unbucketed rows) +
      sum_list (map (fun i => length (List.filter (in_bucket i) rows))
                  (seq 0 5))))%nat.
Proof.
  unfold unbucketed, in_bucket. simpl.
  destruct (Age_Bucket p) as [i|] eqn:Hp.
  - pose proof (Age_Bucket_range p i Hp) as Hi.
    rewrite (bool_decide_eq_false_2 (Some i = None)) by done.
    destruct i as [|[|[|[|[|i]]]]]; [..|lia];
      repeat match goal with
             | |- context [bool_decide (Some ?a = Some ?b)] =>
                 first [ rewrite (bool_decide_eq_true_2 (Some a = Some b))
                           by done
                       | rewrite (bool_decide_eq_false_2 (Some a = Some b))
                           by done ]
             end; simpl; lia.
  - rewrite (bool_decide_eq_true_2 (None = None)) by done.
    repeat match goal with
           | |- context [bool_decide (None = Some ?b)] =>
               rewrite (bool_decide_eq_false_2 (None = Some b)) by done
           end. simpl. lia.
Qed.

End BucketLines.

(** X14: the five bars of the ageing chart split the selected lines without
    overlap: every selected line is behind exactly one bar or behind none,
    so the line counts of the five bars and of the lines behind no bar add
    up to the number of selected lines.  The lines behind no bar are those
    whose age is missing, zero or negative, or above 9999 days. *)
Theorem Age_Bucket_partition (rows : list (so_line * option Z)) :
  (length rows =
   length (List.filter unbucketed rows) +
   sum_list (map (fun i => length (List.filter (in_bucket i) rows))
               (seq 0 (length labels))))%nat /\
  (forall p i j, in_bucket i p = true -> in_bucket j p = true -> i = j) /\
  (forall p, unbucketed p = true <->
     snd p = None \/ exists d, snd p = Some d /\ (d <= 0 \/ 9999 < d)).
Proof.
  split; [|split].
  - change (length labels) with 5%nat.
    induction rows as [|p rows IH]; [done|].
    rewrite bucket_count_cons, <- IH. done.
  - unfold in_bucket. intros p i j Hi%bool_decide_eq_true Hj%bool_decide_eq_true.
    congruence.
  - intros p. unfold unbucketed. rewrite bool_decide_eq_true.
    apply Age_Bucket_None.
Qed.

(** ** Coercion of the numeric columns: when it raises *)

(** What [pd.to_numeric] raises when it is handed a DataFrame: the columns
    of a label that occurs more than once. *)
Definition not_a_series : exn :=
  Exn TypeError "arg must be a list, tuple, 1-d array, or Series".

(** Every label of [cols] occurs at most once in the frame. *)
Definition labels_unique (cols : list string) (df : frame) : bool :=
  forallb (fun name => (occurrences name df <=? 1)%nat) cols.

(** The creditors module (pages/overduecreditorholista.py, lines 81-101):
    the same reconciliation, with a loop for the labels found that tests the
    label as it is. *)
Definition actual_aging_cols_creditor (df : frame) : list string :=
  flat_map (fun col_name => if has_column col_name df then [col_name] else [])
    aging_cols.

Definition reconcile_creditor (parse_number : string -> option float)
    (df0 : frame) : result frame :=
  df ← strip_columns df0;
  let actual := actual_aging_cols_creditor df in
  let cols := match actual with [] => aging_cols | _ => actual end in
  df1 ← coerce_columns parse_number cols df;
  assign_numeric_if_present parse_number "Balance/G.Total" df1.



Section CoerceFacts.
Variable parse_number : string -> option float.

Lemma occurrences_elem name df :
  (1 <= occurrences name df)%nat -> LText name ∈ columns df.
Proof.
  intros Hocc. destruct (decide (LText name ∈ columns df)) as [|Hout]; [done|].
  apply (proj2 (occurrences_0 parse_number name df)) in Hout. lia.
Qed.

Lemma assign_numeric_if_present_duplicate name sel df :
  (2 <= occurrences name df)%nat ->
  assign_numeric_if_present parse_number name
    (coerced_where parse_number sel df) = Raise not_a_series.
Proof.
  intros Hocc. unfold assign_numeric_if_present, has_column.
  rewrite columns_coerced_where.
  rewrite bool_decide_eq_true_2 by (apply occurrences_elem; lia).
  pose proof (occurrences_coerced_where parse_number name sel df) as Hlen.
  unfold assign_numeric. unfold occurrences in Hlen at 1.
  destruct (List.filter _ (coerced_where parse_number sel df)) as [|x [|y l]];
    simpl in Hlen; try lia.
  reflexivity.
Qed.

Lemma coerce_columns_duplicate cols : forall sel df,
  (exists name, name ∈ cols /\ (2 <= occurrences name df)%nat) ->
  coerce_columns parse_number cols (coerced_where parse_number sel df) =
  Raise not_a_series.
Proof.
  induction cols as [|col cols IH]; intros sel df (name & Hin & Hocc).
  - now apply elem_of_nil in Hin.
  - simpl. destruct (le_lt_dec (occurrences col df) 1) as [Hle|Hgt].
    + rewrite assign_numeric_if_present_coerced by done.
      cbn [mbind result_bind]. apply IH. exists name. split; [|done].
      apply elem_of_cons in Hin as [->|Hin]; [lia|done].
    + now rewrite assign_numeric_if_present_duplicate by lia.
Qed.

Lemma labels_unique_spec cols df :
  labels_unique cols df = true <->
  forall name, name ∈ cols -> (occurrences name df <= 1)%nat.
Proof.
  unfold labels_unique. rewrite forallb_forall. split.
  - intros H name Hn. apply Nat.leb_le, H. now apply list_elem_of_In.
  - intros H name Hn. apply Nat.leb_le, H. now apply list_elem_of_In.
Qed.

Lemma labels_unique_false cols df :
  labels_unique cols df = false ->
  exists name, name ∈ cols /\ (2 <= occurrences name df)%nat.
Proof.
  unfold labels_unique. induction cols as [|c cols IH]; simpl; [done|].
  destruct (Nat.leb_spec (occurrences c df) 1) as [Hle|Hgt]; simpl.
  - intros (name & Hn & Hocc)%IH. exists name. split; [now right|done].
  - intros _. exists c. split; [left|lia].
Qed.

(** The loop over [cols], on a frame as it comes from the decoder. *)
Lemma coerce_columns_result cols df :
  coerce_columns parse_number cols df =
    if labels_unique cols df
    then Ok (coerced_where parse_number
               (fun name => bool_decide (name ∈ cols)) df)
    else Raise not_a_series.
Proof.
  rewrite <- (coerced_where_none parse_number df) at 1.
  destruct (labels_unique cols df) eqn:Hu.
  - rewrite coerce_columns_coerced by now apply labels_unique_spec.
    reflexivity.
  - now apply coerce_columns_duplicate, labels_unique_false.
Qed.

(** The values of a coerced column are numbers, none of them NaN. *)
Lemma coerced_where_numbers (sel : string -> bool) df name vals :
  (LText name, vals) ∈ coerced_where parse_number sel df -> sel name = true ->
  Forall (fun v => exists x, v = CNum x /\ isna x = false) vals.
Proof.
  unfold coerced_where.
  intros ([[n|x] olds] & Heq & _)%list_elem_of_fmap Hsel;
    simpl in Heq; [|done].
  destruct (sel n) eqn:Hn.
  - injection Heq as -> ->. apply Forall_forall. intros v Hv.
    apply list_elem_of_fmap in Hv as (old & -> & _). eexists. split; [done|].
    apply coerce_not_nan.
  - injection Heq as -> _. congruence.
Qed.

(** The creditors loop finds the same labels: the expected labels carry no
    blank at either end, so the second test of the receivables loop never
    adds one. *)
Lemma actual_aging_cols_creditor_eq df :
  actual_aging_cols_creditor df = actual_aging_cols df.
Proof.
  rewrite actual_aging_cols_filter. unfold actual_aging_cols_creditor.
  induction aging_cols as [|c cols IH]; [done|].
  simpl. rewrite IH. now destruct (has_column c df).
Qed.

Lemma reconcile_creditor_eq df0 :
  reconcile_creditor parse_number df0 = reconcile parse_number df0.
Proof.
  unfold reconcile_creditor, reconcile.
  destruct (strip_columns df0) as [df|e]; [|done]. cbn [mbind result_bind].
  now rewrite actual_aging_cols_creditor_eq.
Qed.

(** A label of [numeric_cols] that occurs twice makes reconciliation
    raise. *)
Lemma reconcile_duplicate df0 :
  existsb is_text (columns df0) = true ->
  numeric_labels_unique df0 = false ->
  reconcile parse_number df0 = Raise not_a_series.
Proof.
  intros Htext Hdup. rewrite (reconcile_stripped _ _ Htext). cbv zeta.
  set (df := stripped df0).
  apply labels_unique_false in Hdup as (name & Hin & Hocc). fold df in Hocc.
  set (cols := match actual_aging_cols df with
               | [] => aging_cols | _ => actual_aging_cols df end).
  assert (forall n, n ∈ aging_cols -> (2 <= occurrences n df)%nat -> n ∈ cols)
    as Hcols.
  { intros n Hn Ho.
    assert (n ∈ actual_aging_cols df) as Ha.
    { apply elem_of_actual_aging_cols. split; [done|].
      apply occurrences_elem. lia. }
    unfold cols. now destruct (actual_aging_cols df). }
  rewrite (coerce_columns_result cols df).
  destruct (labels_unique cols df) eqn:Hu.
  - cbn [mbind result_bind].
    apply assign_numeric_if_present_duplicate.
    apply elem_of_app in Hin as [Hin|Hin];
      [|now apply list_elem_of_singleton in Hin as ->].
    pose proof (proj1 (labels_unique_spec cols df) Hu name
                  (Hcols name Hin Hocc)). lia.
  - reflexivity.
Qed.

(** Reconciliation, on every workbook. *)
Lemma reconcile_result df0 :
  reconcile parse_number df0 =
    if existsb is_text (columns df0)
    then if numeric_labels_unique df0 then Ok (reconciled parse_number df0)
         else Raise not_a_series
    else Raise not_string_values.
Proof.
  destruct (existsb is_text (columns df0)) eqn:Ht;
    [|now apply reconcile_no_text].
  destruct (numeric_labels_unique df0) eqn:Hu.
  - now apply reconcile_unique.
  - now apply reconcile_duplicate.
Qed.

Lemma no_text_spec (ls : list label) :
  existsb is_text ls = false <-> forall l, l ∈ ls -> is_text l = false.
Proof.
  induction ls as [|l ls IH]; simpl.
  - split; [|done]. intros _ l Hl. now apply elem_of_nil in Hl.
  - rewrite orb_false_iff, IH. split.
    + intros [Hl Hls] l' [->|Hl']%elem_of_cons; [done|now apply Hls].
    + intros Hall. split; [apply Hall; left|].
      intros l' Hl'. apply Hall. now right.
Qed.




End CoerceFacts.

(** X15: the two stock loaders coerce their numeric columns after the fetch
    (18 labels for the ageing workbook, Quantity and Inventory Value for the
    stock workbook).  If each of these labels occurs at most once, the load
    returns the fetched frame with the same labels, in which every value of
    these columns is a number that is not NaN; if one of them occurs twice,
    the load raises the TypeError of [pd.to_numeric]. *)
Theorem load_stock_data_coerced
    (ftp_section : option (gmap string string))
    (retrbinary : string -> result bytes)
    (pd_read_excel pd_read_csv : bytes -> result frame)
    (parse_number : string -> option float) (df : frame) :
  (fetch_stock_ageing ftp_section retrbinary pd_read_excel pd_read_csv
     = Ok df ->
   load_stock_ageing_data ftp_section retrbinary pd_read_excel pd_read_csv
     parse_number =
     if labels_unique stock_numeric_cols df
     then Ok (coerced_where parse_number
                (fun name => bool_decide (name ∈ stock_numeric_cols)) df)
     else Raise not_a_series) /\
  (load_excel ftp_section retrbinary pd_read_excel "stock_status" = Ok df ->
   load_stock_data ftp_section retrbinary pd_read_excel parse_number =
     if labels_unique ["Quantity"; "Inventory Value"] df
     then Ok (coerced_where parse_number
                (fun name =>
                   bool_decide (name ∈ ["Quantity"; "Inventory Value"])) df)
     else Raise not_a_series) /\
  (forall cols : list string,
     columns (coerced_where parse_number
                (fun name => bool_decide (name ∈ cols)) df) = columns df /\
     forall name vals,
       (LText name, vals) ∈ coerced_where parse_number
                              (fun name => bool_decide (name ∈ cols)) df ->
       name ∈ cols ->
       Forall (fun v => exists x, v = CNum x /\ isna x = false) vals).
Proof.
  split; [|split].
  - intros Hfetch. unfold load_stock_ageing_data. rewrite Hfetch.
    apply coerce_columns_result.
  - unfold load_excel, load_stock_data.
    destruct (get_ftp_path ftp_section "stock_status") as [path|e]; [|done].
    cbn [mbind result_bind]. intros ->. apply coerce_columns_result.
  - intros cols. split; [apply columns_coerced_where|].
    intros name vals Hin Hname.
    apply (coerced_where_numbers _ _ _ _ _ Hin).
    now apply bool_decide_eq_true.
Qed.

Lemma load_stock_data_coerced_witness :
  load_stock_ageing_data example_section retr_third
    (fun _ => Ok example_workbook) (fun _ => Ok example_workbook)
    (fun _ => None) =
  if labels_unique stock_numeric_cols example_workbook
  then Ok (coerced_where (fun _ => None)
             (fun name => bool_decide (name ∈ stock_numeric_cols))
             example_workbook)
  else Raise not_a_series.
Proof.
  apply (proj1 (load_stock_data_coerced example_section retr_third
                  (fun _ => Ok example_workbook)
                  (fun _ => Ok example_workbook) (fun _ => None)
                  example_workbook)).
  vm_compute. reflexivity.
Defined.

(** X16: reconciliation of a receivables workbook (not empty, as the page
    requires) raises in two cases only: when no header cell is a text, with
    the AttributeError of the [.str] accessor; and when one of the eight
    expected numeric labels occurs more than once after the labels are
    stripped, with the TypeError of [pd.to_numeric].  On every other
    workbook it returns the reconciled frame. *)
Theorem reconcile_raises (parse_number : string -> option float)
    (df0 : frame) :
  df0 <> [] ->
  reconcile parse_number df0 =
    (if existsb is_text (columns df0)
     then if numeric_labels_unique df0
          then Ok (reconciled parse_number df0)
          else Raise not_a_series
     else Raise not_string_values) /\
  ((exists e, reconcile parse_number df0 = Raise e) <->
   (forall l, l ∈ columns df0 -> is_text l = false) \/
   exists name, name ∈ numeric_cols /\
                (2 <= occurrences name (stripped df0))%nat).
Proof.
  intros _. split; [apply reconcile_result|].
  rewrite reconcile_result.
  destruct (existsb is_text (columns df0)) eqn:Ht.
  - assert (~ forall l, l ∈ columns df0 -> is_text l = false) as Hsome.
    { intros Hnone%no_text_spec. congruence. }
    destruct (numeric_labels_unique df0) eqn:Hu.
    + split; [now intros [e He]|]. intros [Hnone|(name & Hin & Hocc)]; [done|].
      pose proof (numeric_labels_unique_spec _ _ Hu Hin). lia.
    + split; [|now eexists]. intros _. right. now apply labels_unique_false.
  - split; [|now eexists]. intros _. left. now apply no_text_spec.
Qed.

(** A workbook whose header row holds the years only. *)
Definition numbered_workbook : frame :=
  [(LNum (of_Z 2024), [CNum (of_Z 1)]); (LNum (of_Z 2025), [CNum (of_Z 2)])].

Lemma reconcile_raises_witness :
  reconcile (fun _ => None) numbered_workbook =
    (if existsb is_text (columns numbered_workbook)
     then if numeric_labels_unique numbered_workbook
          then Ok (reconciled (fun _ => None) numbered_workbook)
          else Raise not_a_series
     else Raise not_string_values) /\
  ((exists e, reconcile (fun _ => None) numbered_workbook = Raise e) <->
   (forall l, l ∈ columns numbered_workbook -> is_text l = false) \/
   exists name, name ∈ numeric_cols /\
                (2 <= occurrences name (stripped numbered_workbook))%nat).
Proof.
  apply (reconcile_raises (fun _ => None) numbered_workbook). discriminate.
Defined.

(** X17: the creditors module reconciles a workbook as the receivables
    module does: its loop for the labels found omits the test of the
    stripped label, which never adds a label, so the two give the same
    frame or raise the same exception on every workbook. *)
Theorem reconcile_creditor_spec (parse_number : string -> option float)
    (df0 : frame) :
  (forall df, actual_aging_cols_creditor df = actual_aging_cols df) /\
  reconcile_creditor parse_number df0 = reconcile parse_number df0.
Proof.
  split; [apply actual_aging_cols_creditor_eq|apply reconcile_creditor_eq].
Qed.




(** ** The risk lists as filters of the frame
    (overduepaymentholista.py lines 104-111 and 211-220,
    pages/overduecreditorholista.py lines 103-109 and 213-225)

    The rows of the reconciled frame once more, with amounts of any element
    type: reconciliation leaves a column of whole numbers with dtype int64,
    whose sums wrap around, and gives a column with a fraction or a missing
    value dtype float64.  [add] is the elementwise [+] of two columns and
    [pos] the elementwise [> 0], whatever the element types are. *)

Module Ledger.
Section Rows.
Context {K N : Type} `{EqDecision K}.
Variable add : N -> N -> N.
Variable pos : N -> bool.

Record row := Row {
  bp_code : K;
  bp_name : K;
  d61_90 : N;
  d91_120 : N;
  d121_above : N;
  balance_total : N
}.

(** [df[['BP Code', 'BP Name']]], row by row. *)
Definition entity_key (r : row) : K * K := (bp_code r, bp_name r).

(** [left.merge(right, on=['BP Code', 'BP Name'])] for a [right] that has
    the two key columns only. *)
Definition merge_on_key (left : list row) (right : list (K * K)) : list row :=
  flat_map
    (fun r => map (fun _ => r)
                (List.filter (fun k => bool_decide (k = entity_key r)) right))
    left.

(** [df[df['Balance/G.Total'] > 0][['BP Code', 'BP Name']].drop_duplicates()] *)
Definition cust_df (df : list row) : list (K * K) :=
  drop_duplicates
    (map entity_key (List.filter (fun r => pos (balance_total r)) df)).

(** [df['61 To 90 Days'] + df['91 To 120 Days'] + df['121 Days and above']] *)
Definition High_Risk_Amount (r : row) : N :=
  add (add (d61_90 r) (d91_120 r)) (d121_above r).

(** [high_risk] of the receivables module, before [sort_values]. *)
Definition high_risk (df : list row) : list row :=
  let hr := List.filter (fun r => pos (High_Risk_Amount r)) df in
  match cust_df df with
  | [] => hr
  | _ => merge_on_key hr (cust_df df)
  end.

Definition high_risk_count (df : list row) : nat := length (high_risk df).

(** [df['91 To 120 Days'] + df['121 Days and above']] *)
Definition Risk_Amount (r : row) : N := add (d91_120 r) (d121_above r).

(** [risk_creditors] of the creditors module, before [sort_values]. *)
Definition risk_creditors (df : list row) : list row :=
  let rc :=
    List.filter (fun r => pos (Risk_Amount r) && pos (balance_total r)) df in
  match cust_df df with
  | [] => rc
  | _ => merge_on_key rc (cust_df df)
  end.

Definition risk_count (df : list row) : nat := length (risk_creditors df).

End Rows.
End Ledger.

(** A number as a reconciled column holds it: a whole number of dtype
    int64, or a float of dtype float64. *)
Inductive number :=
  | Int64 (z : Z)
  | Float64 (x : float).

(** The int64 that a whole number is stored as: numpy wraps around. *)
Definition wrap64 (z : Z) : Z := (z + 2 ^ 63) mod 2 ^ 64 - 2 ^ 63.

(** The float64 of a number; an int64 is rounded to the nearest float. *)
Definition to_float64 (a : number) : float :=
  match a with
  | Int64 z => of_Z z
  | Float64 x => x
  end.

(** [a + b], elementwise: two int64 columns give an int64 column, any
    other pair a float64 column. *)
Definition number_add (a b : number) : number :=
  match a, b with
  | Int64 x, Int64 y => Int64 (wrap64 (x + y))
  | _, _ => Float64 (add (to_float64 a) (to_float64 b))
  end.

(** [a > 0], elementwise. *)
Definition number_pos (a : number) : bool :=
  match a with
  | Int64 z => 0 <? z
  | Float64 x => gt x (of_Z 0)
  end.

(** A row of int64 columns whose two oldest buckets add up to 2^63, which
    int64 does not hold: the sum is stored as -2^63. *)
Definition wrapping_row : @Ledger.row string number :=
  Ledger.Row "V001" "Acme" (Int64 0) (Int64 (2 ^ 62)) (Int64 (2 ^ 62))
    (Int64 5).

(** The settled customer of C1, as a row of int64 columns. *)
Definition settled_row : @Ledger.row string number :=
  Ledger.Row "C001" "Acme" (Int64 50) (Int64 0) (Int64 0) (Int64 0).

Section MergeFacts.
Context {K N : Type} `{EqDecision K}.
Variable add : N -> N -> N.
Variable pos : N -> bool.
Implicit Types (df : list (@Ledger.row K N)) (r : @Ledger.row K N).

Lemma filter_key_NoDup (right : list (K * K)) k :
  NoDup right ->
  List.filter (fun k' => bool_decide (k' = k)) right =
    if bool_decide (k ∈ right) then [k] else [].
Proof.
  induction 1 as [|x l Hx Hl IH]; [done|]. simpl. rewrite IH.
  destruct (bool_decide_reflect (x = k)) as [->|Hne].
  - rewrite (bool_decide_eq_false_2 (k ∈ l)) by done.
    rewrite bool_decide_eq_true_2 by left. done.
  - destruct (bool_decide_reflect (k ∈ l)) as [Hin|Hout].
    + rewrite bool_decide_eq_true_2 by now right. done.
    + rewrite bool_decide_eq_false_2; [done|].
      rewrite elem_of_cons. intros [->|]; done.
Qed.

(** A join with a key list that has no duplicates selects rows: it never
    repeats or reorders them. *)
Lemma merge_on_key_NoDup (left : list (@Ledger.row K N)) right :
  NoDup right ->
  Ledger.merge_on_key left right =
    List.filter (fun r => bool_decide (Ledger.entity_key r ∈ right)) left.
Proof.
  intros Hnd. unfold Ledger.merge_on_key.
  induction left as [|r left IH]; [done|]. simpl.
  rewrite IH, (filter_key_NoDup _ _ Hnd).
  now destruct (bool_decide (Ledger.entity_key r ∈ right)).
Qed.

(** The active set: the keys of the rows with a positive balance, once
    each. *)
Lemma elem_of_ledger_cust_df df k :
  k ∈ Ledger.cust_df pos df <->
  exists r, r ∈ df /\ Ledger.entity_key r = k /\
            pos (Ledger.balance_total r) = true.
Proof.
  unfold Ledger.cust_df. rewrite elem_of_drop_duplicates, list_elem_of_fmap.
  split.
  - intros (r & -> & Hr). apply elem_of_filter_bool in Hr as [Hr Hb].
    now exists r.
  - intros (r & Hr & <- & Hb). exists r. split; [done|].
    now apply elem_of_filter_bool.
Qed.

Lemma NoDup_ledger_cust_df df : NoDup (Ledger.cust_df pos df).
Proof. apply NoDup_drop_duplicates_from. Qed.

Lemma filter_all {A} (p : A -> bool) (l : list A) :
  (forall x, x ∈ l -> p x = true) -> List.filter p l = l.
Proof.
  induction l as [|x l IH]; [done|]. intros Hall. simpl.
  rewrite (Hall x) by left. f_equal. apply IH. intros y Hy. apply Hall.
  now right.
Qed.

Lemma filter_filter_bool {A} (p q : A -> bool) (l : list A) :
  List.filter p (List.filter q l) = List.filter (fun x => q x && p x) l.
Proof.
  induction l as [|x l IH]; [done|]. simpl.
  destruct (q x); simpl; [destruct (p x)|]; now rewrite IH.
Qed.

Lemma filter_length_le {A} (p : A -> bool) (l : list A) :
  (length (List.filter p l) <= length l)%nat.
Proof.
  induction l as [|x l IH]; [done|]. simpl. destruct (p x); simpl; lia.
Qed.

Lemma ledger_risk_creditors_eq df :
  Ledger.risk_creditors add pos df =
    List.filter
      (fun r => pos (Ledger.Risk_Amount add r) &&
                pos (Ledger.balance_total r))
      df.
Proof.
  unfold Ledger.risk_creditors.
  destruct (Ledger.cust_df pos df) as [|k ks] eqn:E; [done|].
  rewrite <- E, merge_on_key_NoDup by apply NoDup_ledger_cust_df.
  apply filter_all. intros r Hr.
  apply elem_of_filter_bool in Hr as [Hr [_ Hb]%andb_true_iff].
  apply bool_decide_eq_true, elem_of_ledger_cust_df. now exists r.
Qed.

Lemma ledger_high_risk_eq df :
  Ledger.high_risk add pos df =
    List.filter
      (fun r => pos (Ledger.High_Risk_Amount add r) &&
                (bool_decide (Ledger.cust_df pos df = []) ||
                 bool_decide (Ledger.entity_key r ∈ Ledger.cust_df pos df)))
      df.
Proof.
  unfold Ledger.high_risk.
  destruct (Ledger.cust_df pos df) as [|k ks] eqn:E.
  - apply filter_ext. intros r. now rewrite andb_true_r.
  - rewrite <- E, merge_on_key_NoDup by apply NoDup_ledger_cust_df.
    rewrite filter_filter_bool. apply filter_ext. intros r.
    rewrite (bool_decide_eq_false_2 (Ledger.cust_df pos df = []))
      by now rewrite E.
    done.
Qed.

End MergeFacts.

(** A row of float columns as a row of [Ledger]: every amount column has
    dtype float64. *)
Definition to_ledger {K : Type} (r : @balance_row K) : @Ledger.row K number :=
  Ledger.Row (bp_code r) (bp_name r) (Float64 (d61_90 r))
    (Float64 (d91_120 r)) (Float64 (d121_above r))
    (Float64 (balance_total r)).

Section FloatRows.
Context {K : Type} `{EqDecision K}.
Implicit Types (df : list (@balance_row K)).

Lemma filter_map_comm {A B} (p : B -> bool) (q : A -> bool) (f : A -> B)
    (l : list A) :
  (forall x, p (f x) = q x) ->
  List.filter p (map f l) = map f (List.filter q l).
Proof.
  intros Hp. induction l as [|x l IH]; [done|]. simpl.
  rewrite Hp. destruct (q x); simpl; now rewrite IH.
Qed.

Lemma merge_on_key_to_ledger (left : list (@balance_row K)) right :
  Ledger.merge_on_key (map to_ledger left) right =
    map to_ledger (merge_on_key left right).
Proof.
  unfold Ledger.merge_on_key, merge_on_key.
  induction left as [|r left IH]; [done|]. simpl.
  rewrite IH, map_app, map_map.
  reflexivity.
Qed.

Lemma cust_df_to_ledger df :
  Ledger.cust_df number_pos (map to_ledger df) = cust_df df.
Proof.
  unfold Ledger.cust_df, cust_df.
  rewrite (filter_map_comm _ (fun r => gt (balance_total r) (of_Z 0)))
    by done.
  now rewrite map_map.
Qed.

(** On float64 columns the lists of [Ledger] are those of the float rows. *)
Lemma ledger_of_floats df :
  Ledger.high_risk number_add number_pos (map to_ledger df) =
    map to_ledger (high_risk df) /\
  Ledger.risk_creditors number_add number_pos (map to_ledger df) =
    map to_ledger (risk_creditors df).
Proof.
  unfold Ledger.high_risk, high_risk, Ledger.risk_creditors, risk_creditors.
  rewrite cust_df_to_ledger.
  rewrite (filter_map_comm _ (fun r => gt (High_Risk_Amount r) (of_Z 0)))
    by done.
  rewrite (filter_map_comm _
             (fun r => gt (Risk_Amount r) (of_Z 0) &&
                       gt (balance_total r) (of_Z 0))) by done.
  rewrite !merge_on_key_to_ledger.
  now destruct (cust_df df).
Qed.

End FloatRows.

(** X19: in the creditors module the join with the active set changes
    nothing, whatever the element types of the amount columns: the at-risk
    list is the frame's rows with a positive 91+ amount and a positive
    balance, each once and in the order of the frame, so the count is the
    number of such rows.  On int64 columns the 91+ amount wraps around: the
    row [wrapping_row], with 2^62 in each of the two buckets and a positive
    balance, is not at risk. *)
Theorem risk_creditors_rows :
  (forall (K N : Type) (HK : EqDecision K) (add : N -> N -> N)
          (pos : N -> bool) (df : list (@Ledger.row K N)),
     Ledger.risk_creditors add pos df =
       List.filter
         (fun r => pos (Ledger.Risk_Amount add r) &&
                   pos (Ledger.balance_total r))
         df /\
     (Ledger.risk_count add pos df <= length df)%nat) /\
  Ledger.Risk_Amount number_add wrapping_row = Int64 (- 2 ^ 63) /\
  Ledger.risk_creditors number_add number_pos [wrapping_row] = [].
Proof.
  split; [|split; vm_compute; reflexivity].
  intros K N HK add pos df. split; [apply ledger_risk_creditors_eq|].
  unfold Ledger.risk_count. rewrite ledger_risk_creditors_eq.
  apply filter_length_le.
Qed.

(** X20: the high-risk list of the receivables module is a selection of the
    frame's rows, each once and in the order of the frame, whatever the
    element types of the amount columns: the rows with a positive 61+
    amount whose (code, name) pair is in the active set, or, when the
    active set is empty, all rows with a positive 61+ amount.  On int64
    columns the 61+ amount wraps around, so [wrapping_row] is not
    high-risk; the settled customer of C1 is, on int64 columns too. *)
Theorem high_risk_rows :
  (forall (K N : Type) (HK : EqDecision K) (add : N -> N -> N)
          (pos : N -> bool) (df : list (@Ledger.row K N)),
     Ledger.high_risk add pos df =
       List.filter
         (fun r => pos (Ledger.High_Risk_Amount add r) &&
                   (bool_decide (Ledger.cust_df pos df = []) ||
                    bool_decide
                      (Ledger.entity_key r ∈ Ledger.cust_df pos df)))
         df /\
     (Ledger.high_risk_count add pos df <= length df)%nat) /\
  Ledger.High_Risk_Amount number_add wrapping_row = Int64 (- 2 ^ 63) /\
  Ledger.high_risk number_add number_pos [wrapping_row] = [] /\
  Ledger.high_risk number_add number_pos [settled_row] = [settled_row].
Proof.
  split; [|repeat split; vm_compute; reflexivity].
  intros K N HK add pos df. split; [apply ledger_high_risk_eq|].
  unfold Ledger.high_risk_count. rewrite ledger_high_risk_eq.
  apply filter_length_le.
Qed.

(** ** The Stock Status page (pages/holistafile.py, lines 346-371) *)

Section StockStatus.
Context {K : Type} `{EqDecision K}.

(** A row of the stock workbook with the columns the page reads.  A
    warehouse code is missing when the cell is empty. *)
Record stock_row := StockRow {
  warehouse_code : option K;
  item_no : K;
  item_description : K;
  quantity : float;
  inventory_value : float
}.

(** Python's [sorted] on the warehouse codes. *)
Variable sorted : list K -> list K.

(** [sorted(stock_df['Warehouse Code'].dropna().unique())]: the options of
    the warehouse filter, which are its default selection too. *)
Definition wh_codes (stock_df : list stock_row) : list K :=
  sorted (drop_duplicates (omap warehouse_code stock_df)).

(** [stock_df['Warehouse Code'].isin(selected_wh)] on one row. *)
Definition isin_selected (selected_wh : list K) (r : stock_row) : bool :=
  match warehouse_code r with
  | Some w => bool_decide (w ∈ selected_wh)
  | None => false
  end.

(** Lines 353-357. *)
Definition filtered_stock (selected_wh : list K) (stock_df : list stock_row)
  : list stock_row :=
  match selected_wh with
  | [] => []
  | _ => List.filter (isin_selected selected_wh) stock_df
  end.

(** Lines 364-367; the two flags say whether the workbook has the columns
    Item No. and Item Description. *)
Definition total_items (has_item_no has_item_description : bool)
    (filtered : list stock_row) : nat :=
  if has_item_no && has_item_description
  then length (drop_duplicates
                 (map (fun r => (item_no r, item_description r)) filtered))
  else length filtered.

End StockStatus.

Section StockStatusFacts.
Context {K : Type} `{EqDecision K}.

Lemma drop_duplicates_from_length {A} `{EqDecision A} (seen l : list A) :
  (length (drop_duplicates_from seen l) <= length l)%nat.
Proof.
  revert seen. induction l as [|x l IH]; intros seen; simpl; [done|].
  destruct (decide (x ∈ seen)); simpl.
  - specialize (IH seen). lia.
  - specialize (IH (x :: seen)). lia.
Qed.

Lemma filter_none {A} (p : A -> bool) (l : list A) :
  (forall x, x ∈ l -> p x = false) -> List.filter p l = [].
Proof.
  induction l as [|x l IH]; [done|]. intros Hall. simpl.
  rewrite (Hall x) by left. apply IH. intros y Hy. apply Hall. now right.
Qed.

Lemma elem_of_filtered_stock selected_wh (stock_df : list (@stock_row K)) r :
  r ∈ filtered_stock selected_wh stock_df <->
  r ∈ stock_df /\ exists w, warehouse_code r = Some w /\ w ∈ selected_wh.
Proof.
  unfold filtered_stock. destruct selected_wh as [|s sel].
  - split; [intros Hr; now apply elem_of_nil in Hr|].
    intros (_ & w & _ & Hw). now apply elem_of_nil in Hw.
  - rewrite elem_of_filter_bool. unfold isin_selected.
    destruct (warehouse_code r) as [w|].
    + rewrite bool_decide_eq_true. split.
      * intros [Hr Hw]. split; [done|]. now exists w.
      * intros (Hr & w' & [= <-] & Hw). done.
    + split; [now intros [_ ?]|]. now intros (_ & w & ? & _).
Qed.

Lemma filtered_stock_length selected_wh (stock_df : list (@stock_row K)) :
  (length (filtered_stock selected_wh stock_df) <= length stock_df)%nat.
Proof.
  unfold filtered_stock. destruct selected_wh; [simpl; lia|].
  apply filter_length_le.
Qed.

Lemma total_items_le a b (filtered : list (@stock_row K)) :
  (total_items a b filtered <= length filtered)%nat.
Proof.
  unfold total_items. destruct (a && b); [|done].
  unfold drop_duplicates.
  etransitivity; [apply drop_duplicates_from_length|].
  now rewrite length_map.
Qed.

(** The options of the filter are the codes that occur in the workbook. *)
Lemma elem_of_wh_codes (sorted : list K -> list K)
    (stock_df : list (@stock_row K)) w :
  (forall l, sorted l ≡ₚ l) ->
  w ∈ wh_codes sorted stock_df <->
  exists r, r ∈ stock_df /\ warehouse_code r = Some w.
Proof.
  intros Hperm. unfold wh_codes.
  rewrite (Hperm _), elem_of_drop_duplicates. apply list_elem_of_omap.
Qed.

Lemma filtered_stock_all (sorted : list K -> list K)
    (stock_df : list (@stock_row K)) :
  (forall l, sorted l ≡ₚ l) ->
  filtered_stock (wh_codes sorted stock_df) stock_df =
    List.filter (fun r => bool_decide (is_Some (warehouse_code r))) stock_df.
Proof.
  intros Hperm. unfold filtered_stock.
  destruct (wh_codes sorted stock_df) as [|c cs] eqn:E.
  - symmetry. apply filter_none. intros r Hr.
    destruct (warehouse_code r) as [w|] eqn:Hw.
    + assert (w ∈ wh_codes sorted stock_df) as Hin
        by (apply elem_of_wh_codes; [done|now exists r]).
      rewrite E in Hin. now apply elem_of_nil in Hin.
    + apply bool_decide_eq_false_2. now intros [w Hw'].
  - rewrite <- E. apply filter_ext_in. intros r Hr%list_elem_of_In.
    unfold isin_selected. destruct (warehouse_code r) as [w|] eqn:Hw.
    + rewrite !bool_decide_eq_true_2; [done|now exists w|].
      apply elem_of_wh_codes; [done|now exists r].
    + symmetry. apply bool_decide_eq_false_2. now intros [w Hw'].
Qed.

End StockStatusFacts.

(** X21: on the Stock Status page, with the default selection (every
    warehouse code offered), the page shows exactly the rows that have a
    warehouse code, in the order of the workbook; whatever is selected, a
    row is shown only if it has a code and the code is selected, so a row
    whose code is missing is never shown.  The item count is at most the
    number of rows shown, which is at most the number of rows. *)
Theorem filtered_stock_default (K : Type) (HK : EqDecision K)
    (sorted : list K -> list K) (stock_df : list (@stock_row K)) :
  (forall l, sorted l ≡ₚ l) ->
  filtered_stock (wh_codes sorted stock_df) stock_df =
    List.filter (fun r => bool_decide (is_Some (warehouse_code r))) stock_df /\
  (forall selected_wh r,
     r ∈ filtered_stock selected_wh stock_df <->
     r ∈ stock_df /\ exists w, warehouse_code r = Some w /\ w ∈ selected_wh) /\
  (forall selected_wh has_item_no has_item_description,
     (total_items has_item_no has_item_description
        (filtered_stock selected_wh stock_df)
      <= length (filtered_stock selected_wh stock_df))%nat /\
     (length (filtered_stock selected_wh stock_df) <= length stock_df)%nat).
Proof.
  intros Hperm. split; [now apply filtered_stock_all|]. split.
  - intros selected_wh r. apply elem_of_filtered_stock.
  - intros selected_wh a b. split;
      [apply total_items_le|apply filtered_stock_length].
Qed.

(** [sorted] on texts: by code point, which is the order of the UTF-8
    bytes. *)
Definition str_le (a b : string) : Prop := String.leb a b = true.

#[global] Instance str_le_dec : RelDecision str_le :=
  fun a b => decide (String.leb a b = true).

Definition sorted_str (l : list string) : list string := merge_sort str_le l.

(** Three stock rows in two warehouses, and one without a warehouse. *)
Definition example_stock : list (@stock_row string) :=
  [ StockRow (Some "WH2") "I1" "Rice" (of_Z 5) (of_Z 500);
    StockRow None "I2" "Salt" (of_Z 1) (of_Z 10);
    StockRow (Some "WH1") "I1" "Rice" (of_Z 2) (of_Z 200);
    StockRow (Some "WH2") "I3" "Oil" (of_Z 4) (of_Z 900) ].

Lemma filtered_stock_default_witness :
  filtered_stock (wh_codes sorted_str example_stock) example_stock =
    List.filter (fun r => bool_decide (is_Some (warehouse_code r)))
      example_stock.
Proof.
  apply (filtered_stock_default string _ sorted_str example_stock).
  intros l. apply merge_sort_Permutation.
Defined.

(** X22: the reference date is a midnight ([normalize()]).  A line posted
    at midnight of a day is [a - b] days old, the difference of the two day
    numbers; a line whose posting timestamp carries a time of day is one
    day younger, since the days of a difference are rounded down: a line
    posted today at ten o'clock has -1 Overdue Days. *)
Theorem days_since_time_of_day (a b tod : Z) (r : so_line) :
  0 <= tod < day_ns ->
  posting_date r = Some (day_ns * b + tod) ->
  days_since (day_ns * a) r =
    Some (if tod =? 0 then a - b else a - b - 1).
Proof.
  intros Htod Hr. unfold days_since. rewrite Hr. f_equal.
  assert (0 < day_ns) as Hday by (unfold day_ns; lia).
  destruct (Z.eqb_spec tod 0) as [->|Hne].
  - replace (day_ns * a - (day_ns * b + 0)) with ((a - b) * day_ns) by lia.
    now apply Z.div_mul, Z.neq_sym, Z.lt_neq.
  - symmetry. apply (Z.div_unique _ _ _ (day_ns - tod)); lia.
Qed.

(** A line posted on day 19000 at ten o'clock. *)
Definition morning_line : so_line :=
  SoLine (CText "O") (CNum (of_Z 1)) (CNum (of_Z 100))
    (Some (day_ns * 19000 + 36000000000000)) None.

Lemma days_since_time_of_day_witness :
  days_since (day_ns * 19000) morning_line =
    Some (if 36000000000000 =? 0 then 19000 - 19000 else 19000 - 19000 - 1).
Proof.
  apply (days_since_time_of_day 19000 19000 36000000000000 morning_line).
  - unfold day_ns. lia.
  - reflexivity.
Defined.

(** ** Negative amounts *)

Section Rounding.

(** The sign and the class of a float: [sign_is s x] when [x] is a zero, an
    infinity or a finite number of sign [s]. *)
Definition sign_is (s : bool) (x : float) : Prop :=
  match x with
  | S754_zero s' | S754_infinity s' | S754_finite s' _ _ => s' = s
  | S754_nan => False
  end.

Lemma shr_1_nonneg mrs : 0 <= shr_m mrs -> 0 <= shr_m (shr_1 mrs).
Proof. destruct mrs as [[|[p|p|]|p] r s]; simpl; lia. Qed.

Lemma iter_pos_shr_1_nonneg p : forall mrs,
  0 <= shr_m mrs -> 0 <= shr_m (SpecFloat.iter_pos shr_1 p mrs).
Proof.
  induction p as [p IH|p IH|]; intros mrs Hm; simpl.
  - apply IH, IH. now apply shr_1_nonneg.
  - now apply IH, IH.
  - now apply shr_1_nonneg.
Qed.

Lemma shr_fexp_nonneg m e l :
  0 <= m -> 0 <= shr_m (fst (shr_fexp prec emax m e l)).
Proof.
  intros Hm. unfold shr_fexp, shr.
  assert (0 <= shr_m (shr_record_of_loc m l)) as H0
    by (destruct l as [|[]]; done).
  destruct (_ - e) as [|p|p]; simpl; try done.
  now apply iter_pos_shr_1_nonneg.
Qed.

Lemma round_nearest_even_nonneg mx lx :
  0 <= mx -> 0 <= round_nearest_even mx lx.
Proof.
  intros Hm. unfold round_nearest_even.
  destruct lx as [|[]]; try destruct (Z.even mx); lia.
Qed.

(** Rounding a non-negative magnitude gives a number of the sign asked
    for, never NaN. *)
Lemma binary_round_aux_sign s mx ex lx :
  0 <= mx -> sign_is s (binary_round_aux prec emax s mx ex lx).
Proof.
  intros Hm. unfold binary_round_aux.
  pose proof (shr_fexp_nonneg mx ex lx Hm) as H1.
  destruct (shr_fexp prec emax mx ex lx) as [mrs' e']. simpl in H1.
  pose proof (shr_fexp_nonneg
                (round_nearest_even (shr_m mrs') (loc_of_shr_record mrs'))
                e' loc_Exact (round_nearest_even_nonneg _ _ H1)) as H2.
  destruct (shr_fexp prec emax _ e' loc_Exact) as [mrs'' e'']. simpl in H2.
  destruct (shr_m mrs'') as [|m|m]; [done| |lia].
  now destruct (e'' <=? emax - prec).
Qed.

Lemma binary_round_aux_opp s mx ex lx :
  binary_round_aux prec emax (negb s) mx ex lx =
  SFopp (binary_round_aux prec emax s mx ex lx).
Proof.
  unfold binary_round_aux.
  destruct (shr_fexp prec emax mx ex lx) as [mrs' e'].
  destruct (shr_fexp prec emax _ e' loc_Exact) as [mrs'' e''].
  destruct (shr_m mrs'') as [|m|m]; [done| |done].
  now destruct (e'' <=? emax - prec).
Qed.

Lemma SFdiv_core_binary_nonneg m1 e1 m2 e2 :
  0 <= fst (fst (SFdiv_core_binary prec emax (Z.pos m1) e1 (Z.pos m2) e2)).
Proof.
  unfold SFdiv_core_binary.
  set (s := _ - _ - Z.min _ _).
  set (m' := match s with Z0 => Z.pos m1 | Z.pos _ => Z.shiftl (Z.pos m1) s
             | Z.neg _ => 0 end).
  assert (0 <= m') as Hm'.
  { unfold m'. destruct s; [lia| |lia]. apply Z.shiftl_nonneg. lia. }
  pose proof (Z.div_pos m' (Z.pos m2) Hm' eq_refl) as Hq.
  unfold Z.div in Hq. now destruct (Z.div_eucl m' (Z.pos m2)).
Qed.

(** The quotient of two positive finite numbers, and the quotient with the
    dividend negated. *)
Lemma div_finite_opp m e my ey :
  sign_is false (div (S754_finite false m e) (S754_finite false my ey)) /\
  div (S754_finite true m e) (S754_finite false my ey) =
    SFopp (div (S754_finite false m e) (S754_finite false my ey)).
Proof.
  unfold div, SFdiv.
  pose proof (SFdiv_core_binary_nonneg m e my ey) as Hq.
  destruct (SFdiv_core_binary prec emax (Z.pos m) e (Z.pos my) ey)
    as [[mz ez] lz].
  simpl in Hq. split.
  - now apply binary_round_aux_sign.
  - apply (binary_round_aux_opp false).
Qed.

End Rounding.

Section NegativeAmounts.
Import PyStr PyStrFacts.

Lemma lstrip_list_snoc c l a :
  Ascii.eqb a c = false ->
  lstrip_list c (l ++ [a]) = lstrip_list c l ++ [a].
Proof.
  intros Ha. induction l as [|b l IH]; simpl; [now rewrite Ha|].
  now destruct (Ascii.eqb b c).
Qed.

(** Stripping at the end leaves a first character that is not stripped. *)
Lemma rstrip_cons c a s :
  Ascii.eqb a c = false -> rstrip c (String a s) = String a (rstrip c s).
Proof.
  intros Ha. unfold rstrip. simpl.
  rewrite (lstrip_list_snoc _ _ _ Ha), rev_app_distr. reflexivity.
Qed.

Lemma format_2f_opp v :
  sign_is false v -> format_2f (SFopp v) = "-" +:+ format_2f v.
Proof. destruct v as [s|s| |s m e]; try done; now intros ->. Qed.

Lemma trim_2f_opp v :
  sign_is false v -> trim_2f (SFopp v) = "-" +:+ trim_2f v.
Proof.
  intros Hv. unfold trim_2f. rewrite (format_2f_opp v Hv).
  change ("-" +:+ format_2f v) with (String "-" (format_2f v)).
  now rewrite !rstrip_cons.
Qed.

(** One branch of the abbreviating path. *)
Lemma abbreviated_opp m e my ey currency suffix :
  rupee currency
    (trim_2f (div (S754_finite true m e) (S754_finite false my ey))
     +:+ suffix) =
  rupee currency
    ("-" +:+ (trim_2f (div (S754_finite false m e) (S754_finite false my ey))
              +:+ suffix)).
Proof.
  destruct (div_finite_opp m e my ey) as [Hs ->].
  now rewrite (trim_2f_opp _ Hs).
Qed.

Lemma format_indian_opp m e body :
  to_int (S754_finite false m e) <> Ok 0 ->
  format_indian (S754_finite false m e) = Ok body ->
  format_indian (S754_finite true m e) = Ok ("-" +:+ body).
Proof.
  intros Hnz.
  rewrite (format_indian_unfold (S754_finite false m e) _ eq_refl).
  rewrite (format_indian_unfold (S754_finite true m e) _ eq_refl).
  simpl in Hnz. simpl cond_Zopp.
  assert (Z.abs_N (- Z.shiftl (Z.pos m) e) = Z.abs_N (Z.shiftl (Z.pos m) e))
    as -> by lia.
  destruct (N.eqb_spec (Z.abs_N (Z.shiftl (Z.pos m) e)) 0) as [E|_].
  { exfalso. apply Hnz. f_equal. lia. }
  change (sign_of (S754_finite true m e)) with "-".
  change (sign_of (S754_finite false m e)) with "".
  destruct (_ <=? _)%nat; now intros [= <-].
Qed.

End NegativeAmounts.

(** X23: a negative amount is written as the positive amount with a minus
    sign in front, after the currency sign: for a positive finite number
    whose integer part is not zero, negating it turns the output [body] of
    the call without currency into "-" and [body], behind the rupee sign in
    currency mode ("₹ -15L").  (A negative number above -1 is written "0",
    without a sign.) *)
Theorem format_number_negative (m : BinNums.positive) (e : Z)
    (currency short : bool) (body : string) :
  to_int (S754_finite false m e) <> Ok 0 ->
  format_number (S754_finite false m e) false short = Ok body ->
  format_number (S754_finite true m e) currency short =
    Ok (rupee currency ("-" +:+ body)).
Proof.
  intros Hnz.
  assert (forall c, format_number (S754_finite false m e) c false =
                    (formatted ← format_indian (S754_finite false m e);
                     Ok (rupee c formatted))) as Hfull_pos
    by (intros c; now apply format_number_full).
  assert (forall c, format_number (S754_finite true m e) c false =
                    (formatted ← format_indian (S754_finite true m e);
                     Ok (rupee c formatted))) as Hfull_neg
    by (intros c; now apply format_number_full).
  assert (forall body',
            format_number (S754_finite false m e) false false = Ok body' ->
            format_number (S754_finite true m e) currency false =
              Ok (rupee currency ("-" +:+ body'))) as Hfull.
  { intros body'. rewrite Hfull_pos, Hfull_neg.
    destruct (format_indian (S754_finite false m e)) as [b|] eqn:Hb; [|done].
    intros [= <-]. now rewrite (format_indian_opp m e b Hnz Hb). }
  destruct short; [|apply Hfull].
  rewrite (format_number_cases (S754_finite false m e) false eq_refl).
  rewrite (format_number_cases (S754_finite true m e) currency eq_refl).
  change (abs (S754_finite true m e)) with (abs (S754_finite false m e)).
  change (of_Z 1000) with (S754_finite false 8796093022208000 (-43)).
  change (of_Z 100000) with (S754_finite false 6871947673600000 (-36)).
  change (of_Z 10000000) with (S754_finite false 5368709120000000 (-29)).
  repeat match goal with
         | |- context [if ?b then _ else _] => destruct b
         end;
    try (rewrite abbreviated_opp; now intros [= <-]).
  apply Hfull.
Qed.

Lemma format_number_negative_witness :
  format_number (S754_finite true 6442450944000000 (-32)) true true =
    Ok (rupee true ("-" +:+ "15L")).
Proof.
  apply (format_number_negative 6442450944000000 (-32) true true "15L");
    vm_compute; [discriminate|reflexivity].
Defined.
